(** * FFmpeg node for n8n: a shallow embedding of the dispatch pipeline

    The repository holds two versions of one n8n node class, [FFmpegNode]:

    - [src/unnamed/part_000]: the parameter-file transport.  Resolved
      parameters are serialised to a temporary JSON file, binary inputs are
      bridged through temporary files, binary results are rebuilt from a
      base64 payload, and a [finally] block removes the temporary files.
      Its definitions live in [Module ParamFile].
    - [src/nodes/FFmpegNode.node.ts]: the command-line transport.  Resolved
      parameters become [--name value] flags and the child process is
      guarded by a 30 second timer.  Its definitions live in [Module Cli].

    JavaScript values are an inductive type, objects are association lists
    kept in own-property order, the file system is a finite map from paths
    to contents, and asynchronous code is written in a monad that threads
    the machine state and can throw or never settle. *)

From Stdlib Require Import ZArith Ascii String.
From stdpp Require Import base strings gmap list pretty.

Local Open Scope string_scope.
Local Open Scope Z_scope.
Local Set Warnings "-register-all".

(** ** Strings *)

(** [k.endsWith(suffix)]. *)
Definition endsWith (suffix s : string) : bool :=
  let n := String.length s in
  let m := String.length suffix in
  if (n <? m)%nat then false
  else String.eqb (substring (n - m) m s) suffix.

(** [s.replace(pattern, replacement)] with a string pattern: only the first
    occurrence is replaced. *)
Fixpoint replace (pattern replacement s : string) : string :=
  if String.prefix pattern s
  then replacement +:+ substring (String.length pattern)
                                 (String.length s - String.length pattern) s
  else match s with
       | EmptyString => EmptyString
       | String c rest => String c (replace pattern replacement rest)
       end.

(** White space removed by [String.prototype.trim], for strings whose code
    units are below 256: TAB, LF, VT, FF, CR, SPACE and NBSP. *)
Definition is_js_space (c : ascii) : bool :=
  let n := nat_of_ascii c in
  ((9 <=? n) && (n <=? 13) || (n =? 32) || (n =? 160))%nat.

Fixpoint trimStart (s : string) : string :=
  match s with
  | String c rest => if is_js_space c then trimStart rest else s
  | EmptyString => EmptyString
  end.

Fixpoint trimEnd (s : string) : string :=
  match s with
  | EmptyString => EmptyString
  | String c rest =>
      match trimEnd rest with
      | EmptyString => if is_js_space c then EmptyString else String c EmptyString
      | rest' => String c rest'
      end
  end.

Definition trim (s : string) : string := trimEnd (trimStart s).

(** ** JavaScript values

    None of the modelled code does arithmetic on a value: it tests
    truthiness, compares with [===] and converts to text.  A number is
    therefore given by the text [String()] yields for it, which for a
    double is unique up to the sign of zero: [0] and [-0] are both
    [VNum "0"], and NaN is [VNum "NaN"]. *)
Inductive value : Type :=
  | VUndefined
  | VNull
  | VBool (b : bool)
  | VNum (text : string)
  | VStr (s : string)
  | VArr (elems : list value)
  | VObj (fields : list (string * value)).

Abbreviation obj := (list (string * value)).

(** ToBoolean. *)
Definition truthy (v : value) : bool :=
  match v with
  | VUndefined | VNull => false
  | VBool b => b
  | VNum text => negb (String.eqb text "0") && negb (String.eqb text "NaN")
  | VStr s => negb (String.eqb s "")
  | VArr _ | VObj _ => true
  end.

(** [a || b] and [a ?? b] on values. *)
Definition js_or (a b : value) : value := if truthy a then a else b.

Definition nullish (v : value) : bool :=
  match v with VUndefined | VNull => true | _ => false end.

(** [Array.isArray]. *)
Definition isArray (v : value) : bool :=
  match v with VArr _ => true | _ => false end.

Fixpoint join (sep : string) (parts : list string) : string :=
  match parts with
  | [] => ""
  | [p] => p
  | p :: rest => p +:+ sep +:+ join sep rest
  end.

(** [String(v)], also what a template literal and a computed property key
    apply to a value. *)
Fixpoint js_String (v : value) : string :=
  match v with
  | VUndefined => "undefined"
  | VNull => "null"
  | VBool true => "true"
  | VBool false => "false"
  | VNum text => text
  | VStr s => s
  | VArr elems =>
      join "," ((fix each (l : list value) : list string :=
                   match l with
                   | [] => []
                   | x :: l' => (if nullish x then "" else js_String x) :: each l'
                   end) elems)
  | VObj _ => "[object Object]"
  end.

(** [a === b] between a value read from one JSON document and a value that
    comes from elsewhere: primitives compare by type and content, two
    objects or arrays are never the same reference. *)
Definition strict_eq (a b : value) : bool :=
  match a, b with
  | VUndefined, VUndefined => true
  | VNull, VNull => true
  | VBool x, VBool y => Bool.eqb x y
  | VNum x, VNum y => String.eqb x y && negb (String.eqb x "NaN")
  | VStr x, VStr y => String.eqb x y
  | _, _ => false
  end.

(** ** Objects

    An object is the list of its own properties in [Object.keys] order:
    array-index keys first, ascending, then the other keys in the order
    they were first assigned. *)

Definition digit_of (c : ascii) : option N :=
  let n := N_of_ascii c in
  if ((48 <=? n) && (n <=? 57))%N then Some (n - 48)%N else None.

Fixpoint digits_value (acc : N) (s : string) : option N :=
  match s with
  | EmptyString => Some acc
  | String c rest =>
      match digit_of c with
      | Some d => digits_value (acc * 10 + d)%N rest
      | None => None
      end
  end.

(** The array index a property key denotes, if it is a canonical numeric
    string below 2^32 - 1. *)
Definition array_index (k : string) : option N :=
  match k with
  | EmptyString => None
  | String c rest =>
      if Ascii.eqb c "0"
      then (if String.eqb rest "" then Some 0%N else None)
      else match digits_value 0 k with
           | Some n => if (n <? 4294967295)%N then Some n else None
           | None => None
           end
  end.

(** [o[k]] on the own properties. *)
Fixpoint obj_get (k : string) (o : obj) : option value :=
  match o with
  | [] => None
  | (k', v) :: rest => if String.eqb k' k then Some v else obj_get k rest
  end.

Fixpoint obj_update (k : string) (v : value) (o : obj) : obj :=
  match o with
  | [] => []
  | (k', v') :: rest =>
      if String.eqb k' k then (k', v) :: rest else (k', v') :: obj_update k v rest
  end.

(** Where a new key is placed: an array index goes before the first key that
    is not an index or is a larger one, any other key goes last. *)
Fixpoint obj_insert_index (n : N) (k : string) (v : value) (o : obj) : obj :=
  match o with
  | [] => [(k, v)]
  | (k', v') :: rest =>
      match array_index k' with
      | Some n' =>
          if (n <? n')%N then (k, v) :: o
          else (k', v') :: obj_insert_index n k v rest
      | None => (k, v) :: o
      end
  end.

(** [o[k] = v]. *)
Definition obj_set (k : string) (v : value) (o : obj) : obj :=
  match obj_get k o with
  | Some _ => obj_update k v o
  | None =>
      match array_index k with
      | Some n => obj_insert_index n k v o
      | None => o ++ [(k, v)]
      end
  end.

(** [Object.keys(o)]. *)
Definition keys (o : obj) : list string := map fst o.

Fixpoint indexed_from (i : N) (l : list value) : obj :=
  match l with
  | [] => []
  | x :: l' => (pretty i, x) :: indexed_from (i + 1)%N l'
  end.

Fixpoint chars (s : string) : list value :=
  match s with
  | EmptyString => []
  | String c rest => VStr (String c EmptyString) :: chars rest
  end.

(** The own enumerable properties an object spread [{...v}] copies. *)
Definition spread (v : value) : obj :=
  match v with
  | VObj o => o
  | VArr l => indexed_from 0 l
  | VStr s => indexed_from 0 (chars s)
  | _ => []
  end.

(** ** Exceptions *)

Inductive exn : Type :=
  | NodeOperationError (message : string)
  | Error (message : string)
  | TypeError (message : string).

(** [(error as Error).message]. *)
Definition message (e : exn) : string :=
  match e with
  | NodeOperationError m | Error m | TypeError m => m
  end.

(** [v.k] for the property names the node reads ([name], [type], [value],
    [uiFile], [scriptFile], [functions], [properties], [displayOptions],
    [show], [default], [binary_data], [file_name]): none of them is defined
    on a prototype, so a primitive or an array yields [undefined], and
    [undefined] and [null] throw. *)
Definition get_prop (v : value) (k : string) : exn + value :=
  match v with
  | VUndefined =>
      inl (TypeError ("Cannot read properties of undefined (reading '" +:+ k +:+ "')"))
  | VNull =>
      inl (TypeError ("Cannot read properties of null (reading '" +:+ k +:+ "')"))
  | VObj o => inr (default VUndefined (obj_get k o))
  | _ => inr VUndefined
  end.

(** [v?.k]. *)
Definition get_prop_opt (v : value) (k : string) : value :=
  match get_prop v k with
  | inr x => x
  | inl _ => VUndefined
  end.

(** ** Host data *)

(** [IBinaryData]: the bytes of an attachment and its optional file name. *)
Record IBinaryData : Type := {
  bin_data : string;
  bin_fileName : option string
}.

(** [INodeExecutionData]. *)
Record INodeExecutionData : Type := {
  json : value;
  binary : option (gmap string IBinaryData);
  pairedItem : option nat
}.

(** What the spawned child does: it closes after some milliseconds with an
    exit code ([None] is [null], a child ended by a signal), it cannot be
    started, or it never closes. *)
Inductive process : Type :=
  | Closes (elapsed : Z) (code : option Z) (stdout stderr : string)
  | FailsToStart (reason : string)
  | NeverCloses.

(** What [fs.writeFile] meets: the write completes; the file cannot be
    opened, and nothing is created; or the file is opened, so created or
    emptied, and the write then breaks off (a full disk, an I/O error),
    leaving what had been written. *)
Inductive write_result : Type :=
  | Written
  | Refused (reason : string)
  | Broken (reason partial : string).

(** ** Machine state and observable events *)

Inductive event : Type :=
  | ConsoleWarn (text : string)
  | ConsoleError (text : string)
  | WriteFile (path content : string)
  | WriteBroken (path partial : string)
  | Unlink (path : string) (deleted : bool)
  | GetBinaryDataBuffer (itemIndex : nat) (name : value)
  | Spawn (command : string) (args : list string)
  | Kill.

Record State : Type := {
  files : gmap string string;      (* the disk: path to contents *)
  ticks : nat;                     (* readings of [Date.now()] taken so far *)
  trace : list event;              (* console output and system calls, oldest first *)
  tempFiles : list string;         (* [let tempFiles] of [execute] *)
  properties : list value          (* [this.description.properties] *)
}.

(** Everything the node's code receives from outside: built-ins of the
    JavaScript runtime, the operating system, and the n8n host. *)
Record Env : Type := {
  JSON_parse : string -> option value;
  JSON_stringify : value -> string;
  base64_decode : string -> string;
  Buffer_from_other : value -> exn + string;
  path_join : string -> string -> string;
  tmpdir : string;
  repoRoot : string;
  clock : nat -> Z;
  write_outcome : string -> string -> write_result;
  undeletable : string -> bool;
  run_process : string -> list string -> gmap string string -> process;
  getInputData : list INodeExecutionData;
  getNodeParameter : value -> nat -> option value -> exn + value;
  getBinaryDataBuffer_inherited : nat -> value -> exn + string;
  continueOnFail : bool;
  prepareBinaryData : string -> value -> IBinaryData
}.

(** ** The monad of asynchronous code

    A computation runs from a state and either returns, throws, or stays
    pending for ever (a promise that never settles). *)
Inductive outcome (A : Type) : Type :=
  | Ok (a : A)
  | Throw (e : exn)
  | Pending.
Arguments Ok {A} a.
Arguments Throw {A} e.
Arguments Pending {A}.

Definition M (A : Type) : Type := State -> outcome A * State.

Definition ret {A} (a : A) : M A := fun s => (Ok a, s).

Definition bind {A B} (m : M A) (k : A -> M B) : M B :=
  fun s =>
    match m s with
    | (Ok a, s') => k a s'
    | (Throw e, s') => (Throw e, s')
    | (Pending, s') => (Pending, s')
    end.

Notation "'let*' x ':=' m 'in' k" := (bind m (fun x => k))
  (at level 10, x name, m at level 100, k at level 200).

Definition throw {A} (e : exn) : M A := fun s => (Throw e, s).

Definition lift {A} (r : exn + A) : M A :=
  match r with
  | inr a => ret a
  | inl e => throw e
  end.

(** [try { m } catch (e) { handler e }]. *)
Definition try_catch {A} (m : M A) (handler : exn -> M A) : M A :=
  fun s =>
    match m s with
    | (Throw e, s') => handler e s'
    | r => r
    end.

(** [try { m } finally { cleanup }], for a [cleanup] that may itself throw. *)
Definition try_finally {A} (m : M A) (cleanup : M unit) : M A :=
  fun s =>
    match m s with
    | (Pending, s') => (Pending, s')
    | (r, s') =>
        match cleanup s' with
        | (Ok _, s'') => (r, s'')
        | (Throw e, s'') => (Throw e, s'')
        | (Pending, s'') => (Pending, s'')
        end
    end.

Definition emit (e : event) : M unit :=
  fun s => (Ok tt, {| files := files s; ticks := ticks s; trace := trace s ++ [e];
                      tempFiles := tempFiles s; properties := properties s |}).

Definition set_files (f : gmap string string) (s : State) : State :=
  {| files := f; ticks := ticks s; trace := trace s;
     tempFiles := tempFiles s; properties := properties s |}.

Definition set_tempFiles (l : list string) (s : State) : State :=
  {| files := files s; ticks := ticks s; trace := trace s;
     tempFiles := l; properties := properties s |}.

Definition set_properties (l : list value) (s : State) : State :=
  {| files := files s; ticks := ticks s; trace := trace s;
     tempFiles := tempFiles s; properties := l |}.

Section Runtime.
Variable E : Env.

(** [Date.now()]. *)
Definition Date_now : M Z :=
  fun s => (Ok (clock E (ticks s)),
            {| files := files s; ticks := S (ticks s); trace := trace s;
               tempFiles := tempFiles s; properties := properties s |}).

(** [await fs.access(path)]. *)
Definition fs_access (path : string) : M unit :=
  fun s =>
    match files s !! path with
    | Some _ => (Ok tt, s)
    | None => (Throw (Error ("ENOENT: no such file or directory, access '"
                             +:+ path +:+ "'")), s)
    end.

(** [await fs.readFile(path, 'utf-8')]. *)
Definition fs_readFile (path : string) : M string :=
  fun s =>
    match files s !! path with
    | Some raw => (Ok raw, s)
    | None => (Throw (Error ("ENOENT: no such file or directory, open '"
                             +:+ path +:+ "'")), s)
    end.

(** [await fs.writeFile(path, content)]: the file is opened for writing,
    which creates or empties it, and then written. *)
Definition fs_writeFile (path content : string) : M unit :=
  match write_outcome E path content with
  | Written =>
      fun s => emit (WriteFile path content) (set_files (<[path := content]> (files s)) s)
  | Refused reason => throw (Error reason)
  | Broken reason partial =>
      fun s => bind (emit (WriteBroken path partial)) (fun _ => throw (Error reason))
                    (set_files (<[path := partial]> (files s)) s)
  end.

(** [await fs.unlink(path)]. *)
Definition fs_unlink (path : string) : M unit :=
  fun s =>
    match files s !! path with
    | Some _ =>
        if undeletable E path
        then bind (emit (Unlink path false))
                  (fun _ => throw (Error ("EPERM: operation not permitted, unlink '"
                                          +:+ path +:+ "'"))) s
        else emit (Unlink path true) (set_files (delete path (files s)) s)
    | None =>
        bind (emit (Unlink path false))
             (fun _ => throw (Error ("ENOENT: no such file or directory, unlink '"
                                     +:+ path +:+ "'"))) s
    end.

(** [path.join(repoRoot, v)] for a value read from a JSON document;
    [path.join] rejects an argument that is not a string (the engine's
    message goes on to describe the value it received). *)
Definition path_join_value (root : string) (v : value) : M string :=
  match v with
  | VStr s => ret (path_join E root s)
  | _ => throw (TypeError "The path argument must be of type string.")
  end.

(** [readJson(filePath)], the helper at the top of both files. *)
Definition readJson (filePath : string) : M value :=
  try_catch
    (let* raw := fs_readFile filePath in
     match JSON_parse E raw with
     | Some v => ret v
     | None => throw (Error "Unexpected token in JSON")
     end)
    (fun error =>
       let* _ := emit (ConsoleError ("Error reading JSON file at " +:+ filePath +:+ ":")) in
       throw (Error ("Failed to read or parse JSON file: " +:+ filePath))).

Definition manifestPath : string :=
  path_join E (repoRoot E) "ffmpeg_node_manifest.json".

End Runtime.

(** ** The dynamic form builder

    [loadAndAppendDynamicProperties] is the same in both files, up to the
    second argument of its last [console.error]. *)
Section FormBuilder.
Variable E : Env.

(** The object literal built at lines 151-160 of [part_000]
    (169-178 of [FFmpegNode.node.ts]). *)
Definition dynamicProperty (prop funcValue : value) : value :=
  let displayOptions := get_prop_opt prop "displayOptions" in
  VObj (obj_set "displayOptions"
          (VObj (obj_set "show"
                   (VObj (obj_set "selectedFunction" (VArr [funcValue])
                            (spread (js_or (get_prop_opt displayOptions "show")
                                           (VObj [])))))
                   (spread (js_or displayOptions (VObj [])))))
          (spread prop)).

(** [this.description.properties.push(p)]. *)
Definition push_property (p : value) : M unit :=
  fun s => (Ok tt, set_properties (properties s ++ [p]) s).

(** The values a [for ... of] loop visits. *)
Definition iterate (v : value) : M (list value) :=
  match v with
  | VArr l => ret l
  | VStr s => ret (chars s)
  | _ => throw (TypeError (js_String v +:+ " is not iterable"))
  end.

(** One turn of [for (const prop of props)]. *)
Definition append_prop (uiFile funcValue prop : value) : M unit :=
  let* name := lift (get_prop prop "name") in
  let* type := (if truthy name then lift (get_prop prop "type") else ret VUndefined) in
  if negb (truthy name) || negb (truthy type)
  then emit (ConsoleWarn ("Invalid property in " +:+ js_String uiFile +:+ ":"))
  else push_property (dynamicProperty prop funcValue).

Fixpoint append_props (uiFile funcValue : value) (props : list value) : M unit :=
  match props with
  | [] => ret tt
  | prop :: rest =>
      let* _ := append_prop uiFile funcValue prop in
      append_props uiFile funcValue rest
  end.

(** One turn of [for (const func of manifest.functions)]. *)
Definition append_function (func : value) : M unit :=
  let* uiFile := lift (get_prop func "uiFile") in
  let* funcValue := (if truthy uiFile then lift (get_prop func "value")
                     else ret VUndefined) in
  if negb (truthy uiFile) || negb (truthy funcValue)
  then emit (ConsoleWarn ("Invalid function config: " +:+ JSON_stringify E func))
  else
    let* uiStructurePath := path_join_value E (repoRoot E) uiFile in
    try_catch
      (let* _ := fs_access uiStructurePath in
       let* uiConfig := readJson E uiStructurePath in
       let* props := iterate (js_or (get_prop_opt uiConfig "properties") (VArr [])) in
       append_props uiFile funcValue props)
      (fun error =>
         emit (ConsoleError ("Failed to read UI for function '"
                             +:+ js_String (get_prop_opt func "name") +:+ "':"))).

Fixpoint append_functions (funcs : list value) : M unit :=
  match funcs with
  | [] => ret tt
  | func :: rest =>
      let* _ := append_function func in
      append_functions rest
  end.

Definition loadAndAppendDynamicProperties : M unit :=
  try_catch
    (let* found := try_catch (let* _ := fs_access (manifestPath E) in ret true)
                             (fun _ => ret false) in
     if negb found
     then emit (ConsoleWarn ("Manifest file not found: " +:+ manifestPath E))
     else
       let* manifest := readJson E (manifestPath E) in
       let* functions := lift (get_prop manifest "functions") in
       match functions with
       | VArr funcs => append_functions funcs
       | _ => emit (ConsoleWarn "No functions found in manifest")
       end)
    (fun error => emit (ConsoleError "Failed to load dynamic properties:")).

End FormBuilder.

(** ** Code shared by the two [execute] methods *)
Section Dispatch.
Variable E : Env.

(** [manifest.functions.find((f) => f.value === selectedFunctionValue)]. *)
Fixpoint find_function (selected : value) (funcs : list value) : exn + value :=
  match funcs with
  | [] => inr VUndefined
  | f :: rest =>
      match get_prop f "value" with
      | inl e => inl e
      | inr v => if strict_eq v selected then inr f else find_function selected rest
      end
  end.

Definition find_selected (functions selected : value) : exn + value :=
  match functions with
  | VArr funcs => find_function selected funcs
  | VUndefined => inl (TypeError "Cannot read properties of undefined (reading 'find')")
  | VNull => inl (TypeError "Cannot read properties of null (reading 'find')")
  | _ => inl (TypeError "manifest.functions.find is not a function")
  end.

(** [Buffer.from(v, 'base64')]. *)
Definition Buffer_from_base64 (v : value) : exn + string :=
  match v with
  | VStr s => inr (base64_decode E s)
  | _ => Buffer_from_other E v
  end.

(** The [try { JSON.parse } catch { fallback }] block of both files. *)
Definition decode (scriptResult : string) : value :=
  match JSON_parse E scriptResult with
  | Some jsonResult => jsonResult
  | None => VObj [("output", VStr scriptResult); ("parseError", VBool true)]
  end.

(** The record pushed by the [catch] block under continue-on-fail. *)
Definition error_record (error : exn) (itemIndex : nat) : INodeExecutionData :=
  {| json := VObj [("error", VStr (message error))];
     binary := None;
     pairedItem := Some itemIndex |}.

(** The text of an exit code in a template literal. *)
Definition code_text (code : option Z) : string :=
  match code with
  | Some n => pretty n
  | None => "null"
  end.

End Dispatch.

(** ** [src/unnamed/part_000]: parameters in a temporary JSON file *)
Module ParamFile.
Section Execute.
Variable E : Env.

(** One turn of the loop at lines 196-203. *)
Definition resolve_parameter (itemIndex : nat) (parameters : obj) (prop : value)
  : M obj :=
  let* name := lift (get_prop prop "name") in
  if negb (truthy name) then ret parameters
  else match getNodeParameter E name itemIndex None with
       | inr v => ret (obj_set (js_String name) v parameters)
       | inl _ => ret parameters
       end.

Fixpoint resolve_parameters (itemIndex : nat) (parameters : obj) (props : list value)
  : M obj :=
  match props with
  | [] => ret parameters
  | prop :: rest =>
      let* parameters' := resolve_parameter itemIndex parameters prop in
      resolve_parameters itemIndex parameters' rest
  end.

(** [`${prefix}BinaryPropertyName`] with
    [prefix = toggleKey.replace('IsBinary', '')]. *)
Definition binaryPropNameKey (toggleKey : string) : string :=
  replace "IsBinary" "" toggleKey +:+ "BinaryPropertyName".

(** The names every plain object inherits from [Object.prototype]. *)
Definition inherited_name (k : string) : bool :=
  existsb (String.eqb k)
    ["constructor"; "hasOwnProperty"; "isPrototypeOf"; "propertyIsEnumerable";
     "toLocaleString"; "toString"; "valueOf"; "__proto__";
     "__defineGetter__"; "__defineSetter__"; "__lookupGetter__"; "__lookupSetter__"].

(** What [inputData.binary?.[name]] is when it is truthy: an attachment of
    the item, or a member inherited from [Object.prototype]. *)
Inductive binary_member : Type :=
  | OwnAttachment (binaryInfo : IBinaryData)
  | InheritedMember.

(** [await this.helpers.getBinaryDataBuffer(itemIndex, name)]: the bytes of
    the attachment of that name; for a name that is no attachment the
    answer is the host's. *)
Definition getBinaryDataBuffer (itemIndex : nat) (name : value)
    (binaryInfo : binary_member) : M string :=
  let* _ := emit (GetBinaryDataBuffer itemIndex name) in
  match binaryInfo with
  | OwnAttachment info => ret (bin_data info)
  | InheritedMember => lift (getBinaryDataBuffer_inherited E itemIndex name)
  end.

(** [binaryInfo.fileName]. *)
Definition member_fileName (binaryInfo : binary_member) : option string :=
  match binaryInfo with
  | OwnAttachment info => bin_fileName info
  | InheritedMember => None
  end.

(** [tempFiles.push(path)]. *)
Definition push_tempFile (path : string) : M unit :=
  fun s => (Ok tt, set_tempFiles (tempFiles s ++ [path]) s).

(** The attachment the item itself carries under [name]. *)
Definition binary_lookup (inputData : INodeExecutionData) (name : value)
  : option IBinaryData :=
  match binary inputData with
  | Some attachments => attachments !! js_String name
  | None => None
  end.

(** [inputData.binary?.[name]]: an own attachment, else a member that the
    attachment object inherits, else [undefined]. *)
Definition binary_member_of (inputData : INodeExecutionData) (name : value)
  : option binary_member :=
  match binary_lookup inputData name with
  | Some info => Some (OwnAttachment info)
  | None =>
      match binary inputData with
      | Some _ => if inherited_name (js_String name) then Some InheritedMember else None
      | None => None
      end
  end.

(** One turn of [for (const toggleKey of binaryToggleKeys)], lines 214-244. *)
Definition bridge_toggle (itemIndex : nat) (inputData : INodeExecutionData)
    (processedParameters : obj) (toggleKey : string) : M obj :=
  match obj_get toggleKey processedParameters with
  | Some (VBool true) =>
      let binaryPropertyName :=
        default VUndefined (obj_get (binaryPropNameKey toggleKey) processedParameters) in
      if truthy binaryPropertyName then
        match binary_member_of inputData binaryPropertyName with
        | None =>
            throw (NodeOperationError ("Binary property '" +:+ js_String binaryPropertyName
                                       +:+ "' not found in input data."))
        | Some binaryInfo =>
            let* binaryBuffer := getBinaryDataBuffer itemIndex binaryPropertyName binaryInfo in
            let fileName := default (js_String binaryPropertyName +:+ ".bin")
                                    (member_fileName binaryInfo) in
            let* now := Date_now E in
            let tempPath := path_join E (tmpdir E)
                              ("n8n-ffmpeg-bin-" +:+ pretty now +:+ "-" +:+ fileName) in
            let* _ := fs_writeFile E tempPath binaryBuffer in
            let* _ := push_tempFile tempPath in
            ret (obj_set (binaryPropNameKey toggleKey) (VStr tempPath) processedParameters)
        end
      else ret processedParameters
  | _ => ret processedParameters
  end.

Fixpoint bridge_toggles (itemIndex : nat) (inputData : INodeExecutionData)
    (processedParameters : obj) (binaryToggleKeys : list string) : M obj :=
  match binaryToggleKeys with
  | [] => ret processedParameters
  | toggleKey :: rest =>
      let* processedParameters' :=
        bridge_toggle itemIndex inputData processedParameters toggleKey in
      bridge_toggles itemIndex inputData processedParameters' rest
  end.

(** Lines 209-244: copy the parameters, list the toggle keys, run the loop. *)
Definition bridge_in (itemIndex : nat) (inputData : INodeExecutionData)
    (parameters : obj) : M obj :=
  bridge_toggles itemIndex inputData parameters
    (List.filter (endsWith "IsBinary") (keys parameters)).

(** Lines 251-262: the promise around [spawn('python', ...)]. *)
Definition run_script (scriptPath paramsPath : string) : M string :=
  fun s =>
    match emit (Spawn "python" [scriptPath; paramsPath]) s with
    | (_, s') =>
        match run_process E "python" [scriptPath; paramsPath] (files s) with
        | Closes _ (Some 0) stdout _ => (Ok (trim stdout), s')
        | Closes _ code _ stderr =>
            (Throw (NodeOperationError
                      ("Script failed: " +:+
                       (if truthy (VStr stderr) then stderr
                        else "Exited with code " +:+ code_text code))), s')
        | FailsToStart reason =>
            (Throw (NodeOperationError ("Failed to start script: " +:+ reason)), s')
        | NeverCloses => (Pending, s')
        end
    end.

(** Lines 271-289: binary result or plain record. *)
Definition output_record (itemIndex : nat) (jsonResult : value)
  : M INodeExecutionData :=
  let* binary_data := lift (get_prop jsonResult "binary_data") in
  let file_name := get_prop_opt jsonResult "file_name" in
  if truthy binary_data && truthy file_name then
    let* binaryBuffer := lift (Buffer_from_base64 E binary_data) in
    ret {| json := VObj [];
           binary := Some {[ "data" := prepareBinaryData E binaryBuffer file_name ]};
           pairedItem := Some itemIndex |}
  else
    ret {| json := jsonResult; binary := None; pairedItem := Some itemIndex |}.

(** The body of the [try] block, lines 180-289. *)
Definition item_body (itemIndex : nat) (inputData : INodeExecutionData)
  : M INodeExecutionData :=
  let* selectedFunctionValue :=
    lift (getNodeParameter E (VStr "selectedFunction") itemIndex (Some (VStr ""))) in
  if negb (truthy selectedFunctionValue)
  then throw (NodeOperationError "No function selected.")
  else
    let* manifest := readJson E (manifestPath E) in
    let* functions := lift (get_prop manifest "functions") in
    let* selectedFunction := lift (find_selected functions selectedFunctionValue) in
    if negb (truthy selectedFunction)
    then throw (NodeOperationError ("Function '" +:+ js_String selectedFunctionValue
                                    +:+ "' not found."))
    else
      let* scriptPath :=
        path_join_value E (repoRoot E) (get_prop_opt selectedFunction "scriptFile") in
      let* uiStructurePath :=
        path_join_value E (repoRoot E) (get_prop_opt selectedFunction "uiFile") in
      let* _ := fs_access scriptPath in
      let* uiConfig := readJson E uiStructurePath in
      let* props := lift (get_prop uiConfig "properties") in
      let* parameters :=
        match props with
        | VArr l => resolve_parameters itemIndex [] l
        | _ => ret []
        end in
      let* processedParameters := bridge_in itemIndex inputData parameters in
      let* now := Date_now E in
      let paramsPath :=
        path_join E (tmpdir E)
          ("n8n-ffmpeg-params-" +:+ pretty now +:+ "-" +:+ pretty itemIndex +:+ ".json") in
      let* _ := fs_writeFile E paramsPath (JSON_stringify E (VObj processedParameters)) in
      let* _ := push_tempFile paramsPath in
      let* scriptResult := run_script scriptPath paramsPath in
      output_record itemIndex (decode E scriptResult).

(** The loop inside [finally], lines 299-305. *)
Fixpoint unlink_all (paths : list string) : M unit :=
  match paths with
  | [] => ret tt
  | filePath :: rest =>
      let* _ := try_catch (fs_unlink E filePath)
                  (fun e => emit (ConsoleError ("Could not clean up temp file "
                                                +:+ filePath +:+ ":"))) in
      unlink_all rest
  end.

(** The [finally] block, lines 298-307. *)
Definition cleanup : M unit :=
  fun s =>
    match unlink_all (tempFiles s) s with
    | (Ok _, s') => (Ok tt, set_tempFiles [] s')
    | r => r
    end.

(** [try { ... } catch (error) { ... }] of one item, lines 179-297: the new
    value of [returnData], or the error thrown on. *)
Definition item_try_catch (itemIndex : nat) (inputData : INodeExecutionData)
    (returnData : list INodeExecutionData) : M (list INodeExecutionData) :=
  try_catch
    (let* record := item_body itemIndex inputData in
     ret (returnData ++ [record])%list)
    (fun error =>
       if continueOnFail E
       then ret (returnData ++ [error_record error itemIndex])%list
       else throw error).

(** One turn of the [for] loop: [try], [catch] and [finally]. *)
Definition process_item (itemIndex : nat) (inputData : INodeExecutionData)
    (returnData : list INodeExecutionData) : M (list INodeExecutionData) :=
  try_finally (item_try_catch itemIndex inputData returnData) cleanup.

Fixpoint process_items (itemIndex : nat) (items : list INodeExecutionData)
    (returnData : list INodeExecutionData) : M (list INodeExecutionData) :=
  match items with
  | [] => ret returnData
  | inputData :: rest =>
      let* returnData' := process_item itemIndex inputData returnData in
      process_items (S itemIndex) rest returnData'
  end.

(** [execute]: [tempFiles] starts empty, and [prepareOutputData] wraps the
    records as the node's single output. *)
Definition execute : M (list (list INodeExecutionData)) :=
  fun s =>
    bind (process_items 0 (getInputData E) [])
         (fun returnData => ret [returnData])
         (set_tempFiles [] s).

End Execute.
End ParamFile.

(** ** [src/nodes/FFmpegNode.node.ts]: parameters as command-line flags *)
Module Cli.
Section Execute.
Variable E : Env.

(** [value !== undefined && value !== null && value !== ''], negated. *)
Definition omitted (v : value) : bool :=
  match v with
  | VUndefined | VNull => true
  | VStr s => String.eqb s ""
  | _ => false
  end.

(** The loop at lines 237-246.  [args] lives outside the surrounding [try],
    so an exception leaves the flags pushed so far in place: the loop
    returns them together with the exception, if any. *)
Fixpoint collect_args (itemIndex : nat) (props : list value) (args : list string)
  : list string * option exn :=
  match props with
  | [] => (args, None)
  | prop :: rest =>
      match get_prop prop "name" with
      | inl e => (args, Some e)
      | inr name =>
          if negb (truthy name) then collect_args itemIndex rest args
          else
            match getNodeParameter E name itemIndex
                    (Some (js_or (get_prop_opt prop "default") (VStr ""))) with
            | inl e => (args, Some e)
            | inr v =>
                if omitted v then collect_args itemIndex rest args
                else collect_args itemIndex rest
                       (args ++ ["--" +:+ js_String name; js_String v])%list
            end
      end
  end.

(** Lines 228-250: the flags for one item. *)
Definition build_args (itemIndex : nat) (uiStructurePath : string)
    (selectedFunction : value) : M (list string) :=
  let warn := emit (ConsoleWarn ("Failed to load UI config for "
                                 +:+ js_String (get_prop_opt selectedFunction "name")
                                 +:+ ":")) in
  try_catch
    (let* _ := fs_access uiStructurePath in
     let* uiConfig := readJson E uiStructurePath in
     let* props := lift (get_prop uiConfig "properties") in
     match props with
     | VArr l =>
         match collect_args itemIndex l [] with
         | (args, None) => ret args
         | (args, Some _) => let* _ := warn in ret args
         end
     | _ => ret []
     end)
    (fun error => let* _ := warn in ret []).

(** The delay passed to [setTimeout], in milliseconds. *)
Definition timeout_ms : Z := 30000.

(** Lines 253-289: the promise around [spawn('python3', ...)].  A child
    that closes before the timer fires settles the promise through its
    [close] handler; otherwise the timer kills it and rejects. *)
Definition run_script (scriptPath : string) (args : list string) : M string :=
  let timed_out :=
    let* _ := emit Kill in
    throw (NodeOperationError "Script execution timed out") in
  let* _ := emit (Spawn "python3" (scriptPath :: args)) in
  fun s =>
    match run_process E "python3" (scriptPath :: args) (files s) with
    | Closes elapsed code stdout stderr =>
        if elapsed <? timeout_ms then
          match code with
          | Some 0 => (Ok (trim stdout), s)
          | _ =>
              (Throw (NodeOperationError
                        ("Script failed: " +:+
                         (if truthy (VStr stderr) then stderr
                          else "Script exited with code " +:+ code_text code))), s)
          end
        else timed_out s
    | FailsToStart reason =>
        (Throw (NodeOperationError ("Failed to start script: " +:+ reason)), s)
    | NeverCloses => timed_out s
    end.

(** Lines 301-304: the record pushed for a successful item. *)
Definition output_record (itemIndex : nat) (jsonResult : value) : INodeExecutionData :=
  {| json := jsonResult; binary := None; pairedItem := Some itemIndex |}.

(** The body of the [try] block, lines 197-304. *)
Definition item_body (itemIndex : nat) : M INodeExecutionData :=
  let* selectedFunctionValue :=
    lift (getNodeParameter E (VStr "selectedFunction") itemIndex None) in
  if negb (truthy selectedFunctionValue)
  then throw (NodeOperationError "No function selected.")
  else
    let* _ := try_catch (fs_access (manifestPath E))
                (fun _ => throw (NodeOperationError
                                   ("Manifest file not found: " +:+ manifestPath E))) in
    let* manifest := readJson E (manifestPath E) in
    let* functions := lift (get_prop manifest "functions") in
    let* selectedFunction := lift (find_selected functions selectedFunctionValue) in
    if negb (truthy selectedFunction)
    then throw (NodeOperationError ("Function '" +:+ js_String selectedFunctionValue
                                    +:+ "' not found in manifest."))
    else
      let scriptFile := get_prop_opt selectedFunction "scriptFile" in
      let* scriptPath := path_join_value E (repoRoot E) scriptFile in
      let* _ := try_catch (fs_access scriptPath)
                  (fun _ => throw (NodeOperationError
                                     ("Script file not found: " +:+ js_String scriptFile))) in
      let* uiStructurePath :=
        path_join_value E (repoRoot E) (get_prop_opt selectedFunction "uiFile") in
      let* args := build_args itemIndex uiStructurePath selectedFunction in
      let* scriptResult := run_script scriptPath args in
      ret (output_record itemIndex (decode E scriptResult)).

(** [try { ... } catch (error) { ... }] of one item, lines 196-317. *)
Definition process_item (itemIndex : nat) (returnData : list INodeExecutionData)
  : M (list INodeExecutionData) :=
  try_catch
    (let* record := item_body itemIndex in
     ret (returnData ++ [record])%list)
    (fun error =>
       if continueOnFail E
       then ret (returnData ++ [error_record error itemIndex])%list
       else throw error).

Fixpoint process_items (itemIndex : nat) (items : list INodeExecutionData)
    (returnData : list INodeExecutionData) : M (list INodeExecutionData) :=
  match items with
  | [] => ret returnData
  | _ :: rest =>
      let* returnData' := process_item itemIndex returnData in
      process_items (S itemIndex) rest returnData'
  end.

Definition execute : M (list (list INodeExecutionData)) :=
  let* returnData := process_items 0 (getInputData E) [] in
  ret [returnData].

End Execute.
End Cli.

(** ** A small installation used to run the definitions *)
Module Demo.

Definition manifest : value :=
  VObj [("functions",
         VArr [VObj [("name", VStr "Convert"); ("value", VStr "convert");
                     ("uiFile", VStr "ui/convert.json");
                     ("scriptFile", VStr "scripts/convert.py")]])].

Definition ui : value :=
  VObj [("properties",
         VArr [VObj [("name", VStr "inputIsBinary"); ("type", VStr "boolean")];
               VObj [("name", VStr "inputBinaryPropertyName"); ("type", VStr "string")];
               VObj [("name", VStr "quality"); ("type", VStr "number")]])].

(** The parser knows the three documents of the installation by name. *)
Definition parse (raw : string) : option value :=
  if String.eqb raw "MANIFEST" then Some manifest
  else if String.eqb raw "UI" then Some ui
  else if String.eqb raw "{}" then Some (VObj [])
  else None.

Definition disk : gmap string string :=
  {[ "/repo/ffmpeg_node_manifest.json" := "MANIFEST";
     "/repo/ui/convert.json" := "UI";
     "/repo/scripts/convert.py" := "print('{}')" ]}.

Definition parameter (name : value) (itemIndex : nat) (fallback : option value)
  : exn + value :=
  match name with
  | VStr "selectedFunction" => inr (VStr "convert")
  | VStr "inputIsBinary" => inr (VBool true)
  | VStr "inputBinaryPropertyName" => inr (VStr "data")
  | VStr "quality" => inr (VNum "0")
  | _ => inr (default VUndefined fallback)
  end.

Definition item (bytes : string) : INodeExecutionData :=
  {| json := VObj [];
     binary := Some {[ "data" := {| bin_data := bytes; bin_fileName := Some "in.mp4" |} ]};
     pairedItem := None |}.

Definition env_with (param : value -> nat -> option value -> exn + value)
    (child : process) (continue : bool) (items : list INodeExecutionData) : Env :=
  {| JSON_parse := parse;
     JSON_stringify := fun _ => "PARAMS";
     base64_decode := fun s => s;
     Buffer_from_other := fun _ => inl (TypeError "The first argument must be of type string");
     path_join := fun a b => a +:+ "/" +:+ b;
     tmpdir := "/tmp";
     repoRoot := "/repo";
     clock := fun n => 1700000000000 + Z.of_nat n;
     write_outcome := fun _ _ => Written;
     undeletable := fun _ => false;
     run_process := fun _ _ _ => child;
     getInputData := items;
     getNodeParameter := param;
     getBinaryDataBuffer_inherited := fun _ name =>
       inl (Error ("No binary data found for '" +:+ js_String name +:+ "'"));
     continueOnFail := continue;
     prepareBinaryData := fun bytes name =>
       {| bin_data := bytes; bin_fileName := Some (js_String name) |} |}.

Definition env := env_with parameter.

(** A node on which no function has been chosen: every parameter has its
    fallback, or the empty string. *)
Definition unselected : Env :=
  env_with (fun _ _ fallback => inr (default (VStr "") fallback))
           (Closes 10 (Some 0) "{}" "") true [item "AAA"].

Definition start (d : gmap string string) : State :=
  {| files := d; ticks := 0; trace := []; tempFiles := []; properties := [] |}.

(** A descriptor that already narrows its visibility on the selected
    function, and on another parameter. *)
Definition narrowed : value :=
  VObj [("name", VStr "preset"); ("type", VStr "string");
        ("displayOptions",
         VObj [("show", VObj [("selectedFunction", VArr [VStr "resize"]);
                              ("mode", VArr [VStr "advanced"])])])].

(** Three items whose second one names an attachment it does not carry. *)
Definition bare : INodeExecutionData :=
  {| json := VObj []; binary := None; pairedItem := None |}.

Definition batch : list INodeExecutionData := [item "AAA"; bare; item "CCC"].

Definition tolerant : Env := env (Closes 10 (Some 0) "{}" "") true batch.

Definition strict : Env := env (Closes 10 (Some 0) "{}" "") false batch.

(** Two binary inputs whose attachments carry the same file name. *)
Definition two_inputs : INodeExecutionData :=
  {| json := VObj [];
     binary := Some {[ "video" := {| bin_data := "VVV"; bin_fileName := Some "clip.mp4" |};
                       "audio" := {| bin_data := "AAA"; bin_fileName := Some "clip.mp4" |} ]};
     pairedItem := None |}.

Definition two_toggles : obj :=
  [("videoIsBinary", VBool true); ("videoBinaryPropertyName", VStr "video");
   ("audioIsBinary", VBool true); ("audioBinaryPropertyName", VStr "audio")].

(** A toggle whose name contains [IsBinary] before its end. *)
Definition inner_suffix : obj :=
  [("IsBinaryMaskIsBinary", VBool true); ("IsBinaryMaskBinaryPropertyName", VStr "data")].

(** A child that never closes. *)
Definition hanging : Env := env NeverCloses true [item "AAA"].

(** The same child for a batch of three items, under continue-on-fail. *)
Definition stalled : Env := env NeverCloses true batch.


(** A switched-on toggle whose same-prefix sibling,
    [IsBinaryMaskBinaryPropertyName], is absent, beside a parameter that
    happens to be named as the code computes the sibling. *)
Definition shadowed : obj :=
  [("IsBinaryMaskIsBinary", VBool true); ("MaskIsBinaryBinaryPropertyName", VStr "data")].

(** A result whose payload is a number. *)
Definition number_payload : value :=
  VObj [("binary_data", VNum "5"); ("file_name", VStr "x.bin")].

Definition quiet : Env := env (Closes 10 (Some 0) "{}" "") true [item "AAA"].

(** A parameter set whose toggle is on while its sibling is missing. *)
Definition lonely_toggle : obj := [("inputIsBinary", VBool true)].

(** A result whose payload is the empty base64 string. *)
Definition empty_payload : obj :=
  [("binary_data", VStr ""); ("file_name", VStr "x.bin")].

Definition payload : value :=
  VObj [("binary_data", VStr "YWJj"); ("file_name", VStr "x.bin")].

(** The same installation with a clock that stands still for the
    duration of an item. *)
Definition frozen : Env :=
  {| JSON_parse := JSON_parse quiet;
     JSON_stringify := JSON_stringify quiet;
     base64_decode := base64_decode quiet;
     Buffer_from_other := Buffer_from_other quiet;
     path_join := path_join quiet;
     tmpdir := tmpdir quiet;
     repoRoot := repoRoot quiet;
     clock := fun _ => 1700000000000;
     write_outcome := write_outcome quiet;
     undeletable := undeletable quiet;
     run_process := run_process quiet;
     getInputData := [two_inputs];
     getNodeParameter := getNodeParameter quiet;
     getBinaryDataBuffer_inherited := getBinaryDataBuffer_inherited quiet;
     continueOnFail := true;
     prepareBinaryData := prepareBinaryData quiet |}.

(** The same installation on a disk that fills up while a bridge file is
    being written: the file is created, one byte gets through. *)
Definition full_disk : Env :=
  {| JSON_parse := JSON_parse quiet;
     JSON_stringify := JSON_stringify quiet;
     base64_decode := base64_decode quiet;
     Buffer_from_other := Buffer_from_other quiet;
     path_join := path_join quiet;
     tmpdir := tmpdir quiet;
     repoRoot := repoRoot quiet;
     clock := clock quiet;
     write_outcome := fun path _ =>
       if String.prefix "/tmp/n8n-ffmpeg-bin-" path
       then Broken "ENOSPC: no space left on device, write" "A"
       else Written;
     undeletable := undeletable quiet;
     run_process := run_process quiet;
     getInputData := getInputData quiet;
     getNodeParameter := getNodeParameter quiet;
     getBinaryDataBuffer_inherited := getBinaryDataBuffer_inherited quiet;
     continueOnFail := true;
     prepareBinaryData := prepareBinaryData quiet |}.

End Demo.

(** ** Vocabulary of the statements *)

(** An own property of an object value. *)
Definition field (v : value) (k : string) : option value :=
  match v with
  | VObj o => obj_get k o
  | _ => None
  end.

(** An entry of a descriptor's [displayOptions], and a condition of its
    [displayOptions.show]. *)
Definition display_option (descriptor : value) (k : string) : option value :=
  field (get_prop_opt descriptor "displayOptions") k.

Definition show_condition (descriptor : value) (k : string) : option value :=
  field (get_prop_opt (get_prop_opt descriptor "displayOptions") "show") k.

(** A descriptor the form builder accepts: [name] and [type] are truthy. *)
Definition valid_descriptor (prop : value) : bool :=
  truthy (get_prop_opt prop "name") && truthy (get_prop_opt prop "type").

(** A manifest entry the builder can process without an exception
    escaping the loop: it is not [null], and its [uiFile] is a string or
    falsy. *)
Definition entry_ok (func : value) : Prop :=
  nullish func = false /\
  (truthy (get_prop_opt func "uiFile") = false \/
   exists u, get_prop_opt func "uiFile" = VStr u).

(** A computation that never stays pending. *)
Definition settles {A} (m : M A) : Prop :=
  forall s, fst (m s) <> Pending.

(** The same environment with another answer to which files resist
    deletion. *)
Definition with_undeletable (u : string -> bool) (E : Env) : Env :=
  {| JSON_parse := JSON_parse E;
     JSON_stringify := JSON_stringify E;
     base64_decode := base64_decode E;
     Buffer_from_other := Buffer_from_other E;
     path_join := path_join E;
     tmpdir := tmpdir E;
     repoRoot := repoRoot E;
     clock := clock E;
     write_outcome := write_outcome E;
     undeletable := u;
     run_process := run_process E;
     getInputData := getInputData E;
     getNodeParameter := getNodeParameter E;
     getBinaryDataBuffer_inherited := getBinaryDataBuffer_inherited E;
     continueOnFail := continueOnFail E;
     prepareBinaryData := prepareBinaryData E |}.

(** The events a run added to the trace. *)
Definition added (s s' : State) (evs : list event) : Prop :=
  trace s' = (trace s ++ evs)%list.

(** The record a settled item leaves in [returnData] under
    continue-on-fail. *)
Definition record_of (r : outcome INodeExecutionData) (itemIndex : nat)
  : option INodeExecutionData :=
  match r with
  | Ok record => Some record
  | Throw error => Some (error_record error itemIndex)
  | Pending => None
  end.




(** The disk is only read, and the property list only grows at its end. *)
Definition grows (s s' : State) : Prop :=
  files s' = files s /\ exists extra, properties s' = (properties s ++ extra)%list.

(** A computation under which the property list only grows. *)
Definition growing {A} (m : M A) : Prop := forall s, grows s (snd (m s)).

(** From [s] to [s'] the trace was extended, the path of every write that
    completed in between is listed in [tempFiles], and no listed path was
    forgotten. *)
Definition tracks (s s' : State) : Prop :=
  exists evs, added s s' evs
    /\ (forall p c, In (WriteFile p c) evs -> In p (tempFiles s'))
    /\ (forall p, In p (tempFiles s) -> In p (tempFiles s')).

Definition tracking {A} (m : M A) : Prop := forall s, tracks s (snd (m s)).

(** Every record a computation returns satisfies [P]. *)
Definition returns_only {A} (P : A -> Prop) (m : M A) : Prop :=
  forall s a s', m s = (Ok a, s') -> P a.

(** ** Objects: reading after writing *)

Lemma obj_get_update_eq k v o :
  is_Some (obj_get k o) -> obj_get k (obj_update k v o) = Some v.
Proof.
  induction o as [|[k' v'] o IH]; simpl.
  - intros [x Hx]. discriminate.
  - destruct (String.eqb k' k) eqn:Hk; simpl; rewrite Hk; auto.
Qed.

Lemma obj_get_update_ne k k' v o :
  k' <> k -> obj_get k' (obj_update k v o) = obj_get k' o.
Proof.
  intros Hne. induction o as [|[k0 v0] o IH]; simpl; [done|].
  destruct (String.eqb k0 k) eqn:Hk; simpl.
  - apply String.eqb_eq in Hk. subst k0.
    destruct (String.eqb k k') eqn:Hk'; [|done].
    apply String.eqb_eq in Hk'. congruence.
  - destruct (String.eqb k0 k'); auto.
Qed.

Lemma obj_get_app k o1 o2 :
  obj_get k (o1 ++ o2)%list =
  match obj_get k o1 with Some v => Some v | None => obj_get k o2 end.
Proof.
  induction o1 as [|[k0 v0] o1 IH]; simpl; [done|].
  destruct (String.eqb k0 k); auto.
Qed.

Lemma obj_get_insert_index_eq n k v o :
  obj_get k o = None -> obj_get k (obj_insert_index n k v o) = Some v.
Proof.
  induction o as [|[k0 v0] o IH]; simpl.
  - by rewrite String.eqb_refl.
  - destruct (String.eqb k0 k) eqn:Hk; [discriminate|]. intros Hnone.
    destruct (array_index k0) as [n'|]; [destruct (n <? n')%N|]; simpl;
      rewrite ?String.eqb_refl, ?Hk; auto.
Qed.

Lemma obj_get_insert_index_ne n k k' v o :
  k' <> k -> obj_get k' (obj_insert_index n k v o) = obj_get k' o.
Proof.
  intros Hne.
  assert (Hkk : String.eqb k k' = false).
  { apply String.eqb_neq. congruence. }
  induction o as [|[k0 v0] o IH]; simpl.
  - by rewrite Hkk.
  - destruct (array_index k0) as [n'|]; [destruct (n <? n')%N|]; simpl;
      rewrite ?Hkk; auto.
    destruct (String.eqb k0 k'); auto.
Qed.

Lemma obj_get_set_eq k v o : obj_get k (obj_set k v o) = Some v.
Proof.
  unfold obj_set. destruct (obj_get k o) eqn:Hget.
  - apply obj_get_update_eq. eauto.
  - destruct (array_index k).
    + by apply obj_get_insert_index_eq.
    + rewrite obj_get_app, Hget. simpl. by rewrite String.eqb_refl.
Qed.

Lemma obj_get_set_ne k k' v o : k' <> k -> obj_get k' (obj_set k v o) = obj_get k' o.
Proof.
  intros Hne. unfold obj_set. destruct (obj_get k o) eqn:Hget.
  - by apply obj_get_update_ne.
  - destruct (array_index k).
    + by apply obj_get_insert_index_ne.
    + rewrite obj_get_app. destruct (obj_get k' o); [done|]. simpl.
      destruct (String.eqb k k') eqn:Hk; [|done].
      apply String.eqb_eq in Hk. congruence.
Qed.

(** ** The binary bridge, input side: toggles without a usable sibling *)

Lemma bridge_toggle_skip E i inputData pp t s :
  obj_get t pp = Some (VBool true) ->
  truthy (default VUndefined (obj_get (ParamFile.binaryPropNameKey t) pp)) = false ->
  ParamFile.bridge_toggle E i inputData pp t s = (Ok pp, s).
Proof.
  intros Hon Hfalsy. unfold ParamFile.bridge_toggle.
  rewrite Hon. cbv zeta. by rewrite Hfalsy.
Qed.

Lemma bridge_toggle_off E i inputData pp t s :
  obj_get t pp <> Some (VBool true) ->
  ParamFile.bridge_toggle E i inputData pp t s = (Ok pp, s).
Proof.
  intros Hoff. unfold ParamFile.bridge_toggle.
  destruct (obj_get t pp) as [[| |[|]| | | |]|]; try done.
Qed.

Lemma bridge_toggles_skip E i inputData pp ts s :
  (forall t, In t ts -> obj_get t pp = Some (VBool true) ->
     truthy (default VUndefined (obj_get (ParamFile.binaryPropNameKey t) pp)) = false) ->
  ParamFile.bridge_toggles E i inputData pp ts s = (Ok pp, s).
Proof.
  induction ts as [|t ts IH]; intros Hall; simpl; [done|].
  unfold bind.
  assert (Hstep : ParamFile.bridge_toggle E i inputData pp t s = (Ok pp, s)).
  { destruct (obj_get t pp) as [v|] eqn:Hget.
    - destruct v as [| |[|]| | | |];
        try (apply bridge_toggle_off; rewrite Hget; discriminate).
      apply bridge_toggle_skip; [done|]. apply Hall; [by left|done].
    - apply bridge_toggle_off. rewrite Hget. discriminate. }
  rewrite Hstep. apply IH. intros t' Hin. apply Hall. by right.
Qed.

(** A switched-on toggle is passed over when the parameter under the key
    the code computes for it, [binaryPropNameKey], is absent or falsy: the
    turn of the loop returns the parameter set as it was and leaves the
    machine state untouched; a parameter set in which every switched-on
    toggle is of that kind goes through the whole bridge unchanged. *)
Lemma toggle_with_falsy_computed_sibling_is_skipped
    (E : Env) (i : nat) (inputData : INodeExecutionData) :
  (forall (pp : obj) (t : string) (s : State),
     endsWith "IsBinary" t = true ->
     obj_get t pp = Some (VBool true) ->
     truthy (default VUndefined (obj_get (ParamFile.binaryPropNameKey t) pp)) = false ->
     ParamFile.bridge_toggle E i inputData pp t s = (Ok pp, s))
  /\
  (forall (parameters : obj) (s : State),
     (forall t, In t (keys parameters) ->
        endsWith "IsBinary" t = true ->
        obj_get t parameters = Some (VBool true) ->
        truthy (default VUndefined
                  (obj_get (ParamFile.binaryPropNameKey t) parameters)) = false) ->
     ParamFile.bridge_in E i inputData parameters s = (Ok parameters, s)).
Proof.
  split.
  - intros pp t s _ Hon Hfalsy. by apply bridge_toggle_skip.
  - intros parameters s Hall. unfold ParamFile.bridge_in.
    apply bridge_toggles_skip. intros t Hin Hon.
    apply filter_In in Hin as [Hkey Hends]. by apply Hall.
Qed.

(** ** The result decoder and the binary bridge, output side *)

Lemma output_record_plain E i jsonResult s binary_data :
  get_prop jsonResult "binary_data" = inr binary_data ->
  truthy binary_data && truthy (get_prop_opt jsonResult "file_name") = false ->
  ParamFile.output_record E i jsonResult s =
    (Ok {| json := jsonResult; binary := None; pairedItem := Some i |}, s).
Proof.
  intros Hget Hfalse. unfold ParamFile.output_record, bind.
  rewrite Hget. simpl. by rewrite Hfalse.
Qed.

(** C5, as stated, fails: a result object that contains both fields, with
    the empty string as its base64 payload, yields no binary attachment. *)
Lemma binary_result_fields_present_not_enough :
  ~ (forall (E : Env) (i : nat) (o : obj) (b f : string) (s : State),
       obj_get "binary_data" o = Some (VStr b) ->
       obj_get "file_name" o = Some (VStr f) ->
       exists attachment,
         fst (ParamFile.output_record E i (VObj o) s) =
           Ok {| json := VObj [];
                 binary := Some {[ "data" := attachment ]};
                 pairedItem := Some i |}).
Proof.
  intros Hclaim.
  destruct (Hclaim Demo.quiet 0%nat Demo.empty_payload "" "x.bin" (Demo.start Demo.disk)
              eq_refl eq_refl) as [attachment Hrecord].
  simpl in Hrecord. discriminate Hrecord.
Qed.



(** ** Command-line flags *)


(** ** A missing manifest *)

Lemma readJson_missing E path s :
  files s !! path = None ->
  readJson E path s =
    (Throw (Error ("Failed to read or parse JSON file: " +:+ path)),
     snd (emit (ConsoleError ("Error reading JSON file at " +:+ path +:+ ":")) s)).
Proof.
  intros Hnone. unfold readJson, try_catch, bind, fs_readFile. by rewrite Hnone.
Qed.

Lemma build_without_manifest E s :
  files s !! manifestPath E = None ->
  loadAndAppendDynamicProperties E s =
    (Ok tt, snd (emit (ConsoleWarn ("Manifest file not found: " +:+ manifestPath E)) s)).
Proof.
  intros Hnone. unfold loadAndAppendDynamicProperties, try_catch, bind, fs_access.
  by rewrite Hnone.
Qed.

(** C8, as stated, fails: with the manifest absent, an item on which no
    function is selected does not fail with the manifest-missing error. *)
Lemma missing_manifest_not_always_reported :
  ~ (forall (E : Env) (i : nat) (s : State),
       files s !! manifestPath E = None ->
       fst (Cli.item_body E i s) =
         Throw (NodeOperationError ("Manifest file not found: " +:+ manifestPath E))).
Proof.
  intros Hclaim.
  specialize (Hclaim Demo.unselected 0%nat (Demo.start ∅) eq_refl).
  vm_compute in Hclaim. discriminate Hclaim.
Qed.

(** C8, amended. With the manifest file absent, the form builder registers
    nothing and throws nothing: it only writes the warning.  At invocation
    time every item fails and leaves the disk as it was: an item whose
    function selection is truthy fails with the error about the manifest
    ([Manifest file not found: <path>] in the command-line file, and
    [Failed to read or parse JSON file: <path>] in the parameter-file one),
    and an item without a selection fails before the manifest is looked
    at, with [No function selected.]. *)
Theorem missing_manifest_by_phase (E : Env) (s : State) :
  files s !! manifestPath E = None ->
  (exists s', loadAndAppendDynamicProperties E s = (Ok tt, s')
     /\ properties s' = properties s
     /\ added s s' [ConsoleWarn ("Manifest file not found: " +:+ manifestPath E)])
  /\
  (forall i inputData selected,
     getNodeParameter E (VStr "selectedFunction") i (Some (VStr "")) = inr selected ->
     exists s', files s' = files s /\
       ParamFile.item_body E i inputData s =
         (Throw (if truthy selected
                 then Error ("Failed to read or parse JSON file: " +:+ manifestPath E)
                 else NodeOperationError "No function selected."), s'))
  /\
  (forall i selected,
     getNodeParameter E (VStr "selectedFunction") i None = inr selected ->
     Cli.item_body E i s =
       (Throw (NodeOperationError
                 (if truthy selected
                  then "Manifest file not found: " +:+ manifestPath E
                  else "No function selected.")), s)).
Proof.
  intros Hnone. split; [|split].
  - eexists. split; [by apply build_without_manifest|]. by split.
  - intros i inputData selected Hsel.
    unfold ParamFile.item_body, bind. rewrite Hsel. simpl.
    destruct (truthy selected); simpl.
    + rewrite (readJson_missing _ _ _ Hnone).
      eexists. split; [|reflexivity]. reflexivity.
    + exists s. by split.
  - intros i selected Hsel.
    unfold Cli.item_body, bind. rewrite Hsel. simpl.
    destruct (truthy selected); simpl; [|done].
    unfold try_catch, fs_access. by rewrite Hnone.
Qed.

Lemma missing_manifest_by_phase_witness :
  files (Demo.start ∅) !! manifestPath Demo.quiet = None /\
  Cli.item_body Demo.quiet 0 (Demo.start ∅) =
    (Throw (NodeOperationError "Manifest file not found: /repo/ffmpeg_node_manifest.json"),
     Demo.start ∅).
Proof.
  assert (Habsent : files (Demo.start ∅) !! manifestPath Demo.quiet = None)
    by reflexivity.
  split; [exact Habsent|].
  apply (proj2 (proj2 (missing_manifest_by_phase Demo.quiet (Demo.start ∅) Habsent))
           0%nat (VStr "convert") eq_refl).
Defined.

(** ** The form builder: what a build adds to the property list *)

Lemma grows_refl s : grows s s.
Proof. split; [done|]. exists []. by rewrite app_nil_r. Qed.

Lemma grows_trans s1 s2 s3 : grows s1 s2 -> grows s2 s3 -> grows s1 s3.
Proof.
  intros [Hf1 [e1 Hp1]] [Hf2 [e2 Hp2]]. split; [congruence|].
  exists (e1 ++ e2)%list. by rewrite Hp2, Hp1, app_assoc.
Qed.

Lemma grows_emit e s : grows s (snd (emit e s)).
Proof. split; [done|]. exists []. simpl. by rewrite app_nil_r. Qed.

Lemma grows_push p s : grows s (snd (push_property p s)).
Proof. split; [done|]. by exists [p]. Qed.

Lemma readJson_grows E path s : grows s (snd (readJson E path s)).
Proof.
  unfold readJson, try_catch, bind, fs_readFile.
  destruct (files s !! path) as [raw|]; simpl.
  - destruct (JSON_parse E raw); simpl; [apply grows_refl|apply grows_emit].
  - apply grows_emit.
Qed.

Lemma readJson_present E path s raw v :
  files s !! path = Some raw -> JSON_parse E raw = Some v ->
  readJson E path s = (Ok v, s).
Proof.
  intros Hfile Hparse. unfold readJson, try_catch, bind, fs_readFile.
  rewrite Hfile. simpl. by rewrite Hparse.
Qed.

Lemma append_prop_grows uiFile fv prop s :
  grows s (snd (append_prop uiFile fv prop s)).
Proof.
  unfold append_prop, bind, lift.
  destruct (get_prop prop "name") as [e|name]; simpl; [apply grows_refl|].
  destruct (truthy name); simpl.
  - destruct (get_prop prop "type") as [e|type]; simpl; [apply grows_refl|].
    destruct (truthy type); simpl; [apply grows_push|apply grows_emit].
  - apply grows_emit.
Qed.

Lemma append_props_grows uiFile fv props s :
  grows s (snd (append_props uiFile fv props s)).
Proof.
  revert s. induction props as [|prop props IH]; intros s; simpl; [apply grows_refl|].
  unfold bind. pose proof (append_prop_grows uiFile fv prop s) as Hstep.
  destruct (append_prop uiFile fv prop s) as [[[]|e|] s1]; simpl in *; try done.
  eapply grows_trans; [exact Hstep|apply IH].
Qed.

Lemma get_prop_nonnullish v k :
  nullish v = false -> get_prop v k = inr (get_prop_opt v k).
Proof. unfold get_prop_opt. by destruct v. Qed.

(** A valid descriptor is appended, merged; any other non-null one is
    passed over with a warning. *)
Lemma append_prop_exact uiFile fv prop s :
  nullish prop = false ->
  exists s', append_prop uiFile fv prop s = (Ok tt, s')
    /\ files s' = files s
    /\ properties s' =
       (properties s ++ (if valid_descriptor prop then [dynamicProperty prop fv] else []))%list.
Proof.
  intros Hnn. unfold append_prop, bind, lift, valid_descriptor.
  rewrite !(get_prop_nonnullish _ _ Hnn). simpl.
  destruct (truthy (get_prop_opt prop "name")); simpl.
  - destruct (truthy (get_prop_opt prop "type")); simpl.
    + eexists. split; [reflexivity|]. by split.
    + eexists. split; [reflexivity|]. split; [done|]. simpl. by rewrite app_nil_r.
  - eexists. split; [reflexivity|]. split; [done|]. simpl. by rewrite app_nil_r.
Qed.

Lemma append_props_exact uiFile fv props s :
  Forall (fun p => nullish p = false) props ->
  exists s', append_props uiFile fv props s = (Ok tt, s')
    /\ files s' = files s
    /\ properties s' =
       (properties s ++ map (fun p => dynamicProperty p fv)
                            (List.filter valid_descriptor props))%list.
Proof.
  revert s. induction props as [|prop props IH]; intros s Hall; simpl.
  - eexists. split; [reflexivity|]. split; [done|]. by rewrite app_nil_r.
  - inversion Hall as [|? ? Hnn Hrest]; subst.
    destruct (append_prop_exact uiFile fv prop s Hnn) as (s1 & Hrun & Hf1 & Hp1).
    destruct (IH s1 Hrest) as (s2 & Hrun2 & Hf2 & Hp2).
    exists s2. unfold bind. rewrite Hrun. split; [exact Hrun2|].
    split; [congruence|]. rewrite Hp2, Hp1.
    destruct (valid_descriptor prop); simpl; by rewrite <- app_assoc.
Qed.

(** *** Computations that settle, and computations under which the
    property list grows *)

Lemma settles_ret {A} (a : A) : settles (ret a).
Proof. by intros s. Qed.

Lemma settles_throw {A} e : settles (@throw A e).
Proof. by intros s. Qed.

Lemma settles_lift {A} (r : exn + A) : settles (lift r).
Proof. by destruct r. Qed.

Lemma settles_bind {A B} (m : M A) (k : A -> M B) :
  settles m -> (forall a, settles (k a)) -> settles (bind m k).
Proof.
  intros Hm Hk s. unfold bind. specialize (Hm s).
  destruct (m s) as [[a|e|] s1]; simpl in *; try done. apply Hk.
Qed.

Lemma settles_try_catch {A} (m : M A) h :
  settles m -> (forall e, settles (h e)) -> settles (try_catch m h).
Proof.
  intros Hm Hh s. unfold try_catch. specialize (Hm s).
  destruct (m s) as [[a|e|] s1]; simpl in *; try done. apply Hh.
Qed.

Lemma settles_emit e : settles (emit e).
Proof. by intros s. Qed.

Lemma settles_fs_access path : settles (fs_access path).
Proof. intros s. unfold fs_access. by destruct (files s !! path). Qed.

Lemma settles_fs_readFile path : settles (fs_readFile path).
Proof. intros s. unfold fs_readFile. by destruct (files s !! path). Qed.

Lemma settles_readJson E path : settles (readJson E path).
Proof.
  apply settles_try_catch.
  - apply settles_bind; [apply settles_fs_readFile|].
    intros raw. destruct (JSON_parse E raw); [apply settles_ret|apply settles_throw].
  - intros e. apply settles_bind; [apply settles_emit|]. intros _. apply settles_throw.
Qed.

Lemma settles_path_join_value E root v : settles (path_join_value E root v).
Proof. destruct v; try apply settles_throw. apply settles_ret. Qed.

Lemma settles_iterate v : settles (iterate v).
Proof. destruct v; try apply settles_throw; apply settles_ret. Qed.

Lemma settles_push_property p : settles (push_property p).
Proof. by intros s. Qed.

Lemma settles_append_prop uiFile fv prop : settles (append_prop uiFile fv prop).
Proof.
  apply settles_bind; [apply settles_lift|]. intros name.
  apply settles_bind.
  - destruct (truthy name); [apply settles_lift|apply settles_ret].
  - intros type. destruct (negb (truthy name) || negb (truthy type));
      [apply settles_emit|apply settles_push_property].
Qed.

Lemma settles_append_props uiFile fv props : settles (append_props uiFile fv props).
Proof.
  induction props as [|prop props IH]; simpl; [apply settles_ret|].
  apply settles_bind; [apply settles_append_prop|]. by intros _.
Qed.

Lemma growing_ret {A} (a : A) : growing (ret a).
Proof. intros s. apply grows_refl. Qed.

Lemma growing_throw {A} e : growing (@throw A e).
Proof. intros s. apply grows_refl. Qed.

Lemma growing_lift {A} (r : exn + A) : growing (lift r).
Proof. destruct r; [apply growing_throw|apply growing_ret]. Qed.

Lemma growing_bind {A B} (m : M A) (k : A -> M B) :
  growing m -> (forall a, growing (k a)) -> growing (bind m k).
Proof.
  intros Hm Hk s. unfold bind. specialize (Hm s).
  destruct (m s) as [[a|e|] s1]; simpl in *; try done.
  eapply grows_trans; [exact Hm|apply Hk].
Qed.

Lemma growing_try_catch {A} (m : M A) h :
  growing m -> (forall e, growing (h e)) -> growing (try_catch m h).
Proof.
  intros Hm Hh s. unfold try_catch. specialize (Hm s).
  destruct (m s) as [[a|e|] s1]; simpl in *; try done.
  eapply grows_trans; [exact Hm|apply Hh].
Qed.

Lemma growing_emit e : growing (emit e).
Proof. intros s. apply grows_emit. Qed.

Lemma growing_fs_access path : growing (fs_access path).
Proof. intros s. unfold fs_access. destruct (files s !! path); apply grows_refl. Qed.

Lemma growing_readJson E path : growing (readJson E path).
Proof. intros s. apply readJson_grows. Qed.

Lemma growing_path_join_value E root v : growing (path_join_value E root v).
Proof. destruct v; try apply growing_throw. apply growing_ret. Qed.

Lemma growing_iterate v : growing (iterate v).
Proof. destruct v; try apply growing_throw; apply growing_ret. Qed.

Lemma growing_append_props uiFile fv props : growing (append_props uiFile fv props).
Proof. intros s. apply append_props_grows. Qed.

Lemma settles_append_function E func : settles (append_function E func).
Proof.
  apply settles_bind; [apply settles_lift|]. intros uiFile.
  apply settles_bind.
  { destruct (truthy uiFile); [apply settles_lift|apply settles_ret]. }
  intros fv. destruct (negb (truthy uiFile) || negb (truthy fv)); [apply settles_emit|].
  apply settles_bind; [apply settles_path_join_value|]. intros path.
  apply settles_try_catch; [|intros e; apply settles_emit].
  apply settles_bind; [apply settles_fs_access|]. intros _.
  apply settles_bind; [apply settles_readJson|]. intros uiConfig.
  apply settles_bind; [apply settles_iterate|]. intros props.
  apply settles_append_props.
Qed.

Lemma growing_append_function E func : growing (append_function E func).
Proof.
  apply growing_bind; [apply growing_lift|]. intros uiFile.
  apply growing_bind.
  { destruct (truthy uiFile); [apply growing_lift|apply growing_ret]. }
  intros fv. destruct (negb (truthy uiFile) || negb (truthy fv)); [apply growing_emit|].
  apply growing_bind; [apply growing_path_join_value|]. intros path.
  apply growing_try_catch; [|intros e; apply growing_emit].
  apply growing_bind; [apply growing_fs_access|]. intros _.
  apply growing_bind; [apply growing_readJson|]. intros uiConfig.
  apply growing_bind; [apply growing_iterate|]. intros props.
  apply growing_append_props.
Qed.

Lemma try_catch_handled {A} (m : M A) (h : exn -> M A) (a : A) s :
  settles m ->
  (forall x s1, m s = (Ok x, s1) -> x = a) ->
  (forall e s1, fst (h e s1) = Ok a) ->
  fst (try_catch m h s) = Ok a.
Proof.
  intros Hm Hok Hh. unfold try_catch. specialize (Hm s).
  destruct (m s) as [[x|e|] s1]; simpl in *; try done.
  f_equal. by eapply Hok.
Qed.

Lemma append_function_ok E func s :
  entry_ok func -> fst (append_function E func s) = Ok tt.
Proof.
  intros [Hnn Hui]. unfold append_function, bind, lift.
  rewrite !(get_prop_nonnullish _ _ Hnn). simpl.
  destruct (truthy (get_prop_opt func "uiFile")) eqn:Htruthy; simpl; [|done].
  destruct (truthy (get_prop_opt func "value")); simpl; [|done].
  destruct Hui as [Hfalse|[u Hu]]; [congruence|].
  rewrite Hu. simpl. apply try_catch_handled.
  - apply settles_bind; [apply settles_fs_access|]. intros _.
    apply settles_bind; [apply settles_readJson|]. intros uiConfig.
    apply settles_bind; [apply settles_iterate|]. intros props.
    apply settles_append_props.
  - by intros [].
  - done.
Qed.

Lemma append_function_registers E func s u rawui uiConfig props :
  nullish func = false ->
  get_prop_opt func "uiFile" = VStr u ->
  truthy (VStr u) = true ->
  truthy (get_prop_opt func "value") = true ->
  files s !! path_join E (repoRoot E) u = Some rawui ->
  JSON_parse E rawui = Some uiConfig ->
  get_prop_opt uiConfig "properties" = VArr props ->
  Forall (fun p => nullish p = false) props ->
  exists s', append_function E func s = (Ok tt, s')
    /\ files s' = files s
    /\ properties s' =
       (properties s ++ map (fun p => dynamicProperty p (get_prop_opt func "value"))
                            (List.filter valid_descriptor props))%list.
Proof.
  intros Hnn Hu Htu Htv Hfile Hparse Hprops Hall.
  unfold append_function, bind, lift.
  rewrite !(get_prop_nonnullish _ _ Hnn). simpl.
  rewrite Hu, Htu. simpl. rewrite Htv. simpl.
  unfold try_catch, fs_access. rewrite Hfile.
  rewrite (readJson_present _ _ _ _ _ Hfile Hparse).
  rewrite Hprops. simpl.
  destruct (append_props_exact (VStr u) (get_prop_opt func "value") props s Hall)
    as (s' & Hrun & Hf & Hp).
  rewrite Hrun. by exists s'.
Qed.

Lemma append_functions_register E funcs s :
  Forall entry_ok funcs ->
  exists s', append_functions E funcs s = (Ok tt, s')
    /\ grows s s'
    /\ forall func u rawui uiConfig props prop,
         In func funcs ->
         get_prop_opt func "uiFile" = VStr u ->
         truthy (VStr u) = true ->
         truthy (get_prop_opt func "value") = true ->
         files s !! path_join E (repoRoot E) u = Some rawui ->
         JSON_parse E rawui = Some uiConfig ->
         get_prop_opt uiConfig "properties" = VArr props ->
         Forall (fun p => nullish p = false) props ->
         In prop props ->
         valid_descriptor prop = true ->
         In (dynamicProperty prop (get_prop_opt func "value")) (properties s').
Proof.
  revert s. induction funcs as [|f funcs IH]; intros s Hall; simpl.
  - exists s. split; [done|]. split; [apply grows_refl|]. by intros.
  - inversion Hall as [|? ? Hf Hrest]; subst.
    pose proof (append_function_ok E f s Hf) as Hok.
    pose proof (growing_append_function E f s) as Hgrow.
    destruct (append_function E f s) as [r s1] eqn:Hrun. simpl in Hok, Hgrow. subst r.
    destruct (IH s1 Hrest) as (s2 & Hrun2 & Hgrow2 & Hreg).
    exists s2. unfold bind. rewrite Hrun. split; [exact Hrun2|].
    split; [by eapply grows_trans|].
    intros func u rawui uiConfig props prop [<-|Hin] Hu Htu Htv Hfile Hparse Hprops Hnn Hprop Hvalid.
    + destruct (append_function_registers E f s u rawui uiConfig props
                  (proj1 Hf) Hu Htu Htv Hfile Hparse Hprops Hnn) as (s1' & Hrun' & _ & Hp).
      rewrite Hrun in Hrun'. injection Hrun' as <-.
      destruct Hgrow2 as [_ [extra Hextra]]. rewrite Hextra, Hp.
      apply in_or_app. left. apply in_or_app. right.
      apply (in_map (fun p => dynamicProperty p (get_prop_opt f "value"))).
      apply filter_In. by split.
    + eapply Hreg; eauto. destruct Hgrow as [-> _]. exact Hfile.
Qed.

(** *** What the merged object keeps *)

Lemma get_prop_opt_obj o k : get_prop_opt (VObj o) k = default VUndefined (obj_get k o).
Proof. reflexivity. Qed.

Lemma field_spread v k c : field v k = Some c -> obj_get k (spread v) = Some c.
Proof. by destruct v. Qed.

Lemma field_truthy v k c : field v k = Some c -> truthy v = true.
Proof. by destruct v. Qed.

Lemma dynamicProperty_show prop fv :
  show_condition (dynamicProperty prop fv) "selectedFunction" = Some (VArr [fv]).
Proof.
  unfold show_condition, dynamicProperty.
  rewrite get_prop_opt_obj, obj_get_set_eq. simpl.
  rewrite get_prop_opt_obj, obj_get_set_eq. simpl.
  apply obj_get_set_eq.
Qed.

Lemma dynamicProperty_keeps_field prop fv k c :
  k <> "displayOptions" ->
  field prop k = Some c -> field (dynamicProperty prop fv) k = Some c.
Proof.
  intros Hk Hfield. unfold dynamicProperty. simpl.
  rewrite obj_get_set_ne by done. by apply field_spread.
Qed.

Lemma dynamicProperty_keeps_option prop fv k c :
  k <> "show" ->
  display_option prop k = Some c -> display_option (dynamicProperty prop fv) k = Some c.
Proof.
  intros Hk Hopt. unfold display_option, dynamicProperty in *.
  rewrite get_prop_opt_obj, obj_get_set_eq. simpl.
  rewrite obj_get_set_ne by done.
  unfold js_or. rewrite (field_truthy _ _ _ Hopt). by apply field_spread.
Qed.

Lemma dynamicProperty_keeps_condition prop fv k c :
  k <> "selectedFunction" ->
  show_condition prop k = Some c -> show_condition (dynamicProperty prop fv) k = Some c.
Proof.
  intros Hk Hcond. unfold show_condition, dynamicProperty in *.
  rewrite get_prop_opt_obj, obj_get_set_eq. simpl.
  rewrite get_prop_opt_obj, obj_get_set_eq. simpl.
  rewrite obj_get_set_ne by done.
  unfold js_or. rewrite (field_truthy _ _ _ Hcond). by apply field_spread.
Qed.

(** C7, as stated, fails: a [show] condition on [selectedFunction] that the
    schema already declares is replaced, not kept. *)
Lemma merge_replaces_declared_selectedFunction :
  ~ (forall (prop fv : value) (k : string) (c : value),
       show_condition prop k = Some c ->
       show_condition (dynamicProperty prop fv) k = Some c).
Proof.
  intros Hclaim.
  specialize (Hclaim Demo.narrowed (VStr "convert") "selectedFunction"
                (VArr [VStr "resize"]) eq_refl).
  vm_compute in Hclaim. discriminate Hclaim.
Qed.

(** C7, amended. For a manifest whose entries are not [null] and have a
    string (or falsy) [uiFile]: for every entry with a truthy [uiFile] and
    [value] whose schema file loads to a list of non-null descriptors, and
    every descriptor of it with a truthy [name] and [type], the builder
    registers the descriptor merged with [show.selectedFunction = [value]].
    The merge keeps every property of the descriptor other than
    [displayOptions], every entry of its [displayOptions] other than
    [show], and every [show] condition other than one on
    [selectedFunction], which is replaced by [[value]]. *)
Theorem form_builder_merges_visibility
    (E : Env) (s : State) (raw : string) (manifest : value) (funcs : list value) :
  files s !! manifestPath E = Some raw ->
  JSON_parse E raw = Some manifest ->
  get_prop manifest "functions" = inr (VArr funcs) ->
  Forall entry_ok funcs ->
  exists s', loadAndAppendDynamicProperties E s = (Ok tt, s') /\
    forall func u rawui uiConfig props prop,
      In func funcs ->
      get_prop_opt func "uiFile" = VStr u ->
      truthy (VStr u) = true ->
      truthy (get_prop_opt func "value") = true ->
      files s !! path_join E (repoRoot E) u = Some rawui ->
      JSON_parse E rawui = Some uiConfig ->
      get_prop_opt uiConfig "properties" = VArr props ->
      Forall (fun p => nullish p = false) props ->
      In prop props ->
      valid_descriptor prop = true ->
      let registered := dynamicProperty prop (get_prop_opt func "value") in
      In registered (properties s')
      /\ show_condition registered "selectedFunction"
           = Some (VArr [get_prop_opt func "value"])
      /\ (forall k c, k <> "displayOptions" ->
            field prop k = Some c -> field registered k = Some c)
      /\ (forall k c, k <> "show" ->
            display_option prop k = Some c -> display_option registered k = Some c)
      /\ (forall k c, k <> "selectedFunction" ->
            show_condition prop k = Some c -> show_condition registered k = Some c).
Proof.
  intros Hfile Hparse Hfuncs Hall.
  destruct (append_functions_register E funcs s Hall) as (s' & Hrun & _ & Hreg).
  exists s'. split.
  - unfold loadAndAppendDynamicProperties, try_catch, bind, fs_access.
    rewrite Hfile. simpl.
    rewrite (readJson_present _ _ _ _ _ Hfile Hparse).
    unfold lift. rewrite Hfuncs. simpl. by rewrite Hrun.
  - intros func u rawui uiConfig props prop Hin Hu Htu Htv Hui Hpui Hprops Hnn Hprop Hvalid.
    split; [by eapply Hreg|].
    split; [apply dynamicProperty_show|].
    split; [intros k c; apply dynamicProperty_keeps_field|].
    split; [intros k c; apply dynamicProperty_keeps_option|].
    intros k c; apply dynamicProperty_keeps_condition.
Qed.

Lemma form_builder_merges_visibility_witness :
  files (Demo.start Demo.disk) !! manifestPath Demo.quiet = Some "MANIFEST" /\
  exists s', loadAndAppendDynamicProperties Demo.quiet (Demo.start Demo.disk) = (Ok tt, s')
    /\ In (dynamicProperty (VObj [("name", VStr "quality"); ("type", VStr "number")])
             (VStr "convert")) (properties s').
Proof.
  assert (Hmanifest : files (Demo.start Demo.disk) !! manifestPath Demo.quiet
                      = Some "MANIFEST") by reflexivity.
  assert (Hui : files (Demo.start Demo.disk)
                  !! path_join Demo.quiet (repoRoot Demo.quiet) "ui/convert.json"
                = Some "UI") by reflexivity.
  split; [exact Hmanifest|].
  destruct (form_builder_merges_visibility Demo.quiet (Demo.start Demo.disk) "MANIFEST"
              Demo.manifest
              [VObj [("name", VStr "Convert"); ("value", VStr "convert");
                     ("uiFile", VStr "ui/convert.json");
                     ("scriptFile", VStr "scripts/convert.py")]]
              Hmanifest eq_refl eq_refl)
    as (s' & Hrun & Hall).
  { constructor; [|constructor]. split; [reflexivity|]. right. by eexists. }
  exists s'. split; [exact Hrun|].
  refine (proj1 (Hall _ "ui/convert.json" "UI" Demo.ui _
                   (VObj [("name", VStr "quality"); ("type", VStr "number")])
                   (or_introl eq_refl) eq_refl eq_refl eq_refl Hui eq_refl eq_refl _ _ eq_refl)).
  - repeat constructor.
  - simpl. tauto.
Defined.

(** ** Temporary files: every write is remembered, every remembered path
    is unlinked *)

Lemma tracks_refl s : tracks s s.
Proof.
  exists []. unfold added. rewrite app_nil_r. split; [done|]. split; [|done].
  by intros p c [].
Qed.

Lemma tracks_trans s1 s2 s3 : tracks s1 s2 -> tracks s2 s3 -> tracks s1 s3.
Proof.
  intros (e1 & Ha1 & Hw1 & Hk1) (e2 & Ha2 & Hw2 & Hk2).
  exists (e1 ++ e2)%list. unfold added in *. split; [by rewrite Ha2, Ha1, app_assoc|].
  split; [|by auto].
  intros p c Hin. apply in_app_or in Hin as [Hin|Hin]; eauto.
Qed.

Lemma tracking_ret {A} (a : A) : tracking (ret a).
Proof. intros s. apply tracks_refl. Qed.

Lemma tracking_throw {A} e : tracking (@throw A e).
Proof. intros s. apply tracks_refl. Qed.

Lemma tracking_lift {A} (r : exn + A) : tracking (lift r).
Proof. destruct r; [apply tracking_throw|apply tracking_ret]. Qed.

Lemma tracking_bind {A B} (m : M A) (k : A -> M B) :
  tracking m -> (forall a, tracking (k a)) -> tracking (bind m k).
Proof.
  intros Hm Hk s. unfold bind. specialize (Hm s).
  destruct (m s) as [[a|e|] s1]; simpl in *; try done.
  eapply tracks_trans; [exact Hm|apply Hk].
Qed.

Lemma tracking_try_catch {A} (m : M A) h :
  tracking m -> (forall e, tracking (h e)) -> tracking (try_catch m h).
Proof.
  intros Hm Hh s. unfold try_catch. specialize (Hm s).
  destruct (m s) as [[a|e|] s1]; simpl in *; try done.
  eapply tracks_trans; [exact Hm|apply Hh].
Qed.

Lemma tracking_emit e : (forall p c, e <> WriteFile p c) -> tracking (emit e).
Proof.
  intros Hne s. exists [e]. split; [done|]. split; [|done].
  intros p c [->|[]]. by destruct (Hne p c).
Qed.

Lemma tracking_Date_now E : tracking (Date_now E).
Proof. intros s. exists []. unfold added. simpl. rewrite app_nil_r. split; [done|]. split; [|done]. by intros p c []. Qed.

Lemma tracking_fs_access path : tracking (fs_access path).
Proof. intros s. unfold fs_access. destruct (files s !! path); apply tracks_refl. Qed.

Lemma tracking_fs_readFile path : tracking (fs_readFile path).
Proof. intros s. unfold fs_readFile. destruct (files s !! path); apply tracks_refl. Qed.

Lemma tracking_readJson E path : tracking (readJson E path).
Proof.
  apply tracking_try_catch.
  - apply tracking_bind; [apply tracking_fs_readFile|].
    intros raw. destruct (JSON_parse E raw); [apply tracking_ret|apply tracking_throw].
  - intros e. apply tracking_bind; [by apply tracking_emit|]. intros _. apply tracking_throw.
Qed.

Lemma tracking_path_join_value E root v : tracking (path_join_value E root v).
Proof. destruct v; try apply tracking_throw. apply tracking_ret. Qed.

(** A write followed, when it completes, by [tempFiles.push] of the same
    path. *)
Lemma tracking_write_push {A} E path content (k : M A) :
  tracking k ->
  tracking (let* _ := fs_writeFile E path content in
            let* _ := ParamFile.push_tempFile path in k).
Proof.
  intros Hk s. unfold bind, fs_writeFile.
  destruct (write_outcome E path content) as [|reason|reason partial]; simpl.
  - eapply tracks_trans; [|apply Hk].
    exists [WriteFile path content]. split; [done|]. simpl. split.
    + intros p c [[= <- <-]|[]]. apply in_or_app. right. by left.
    + intros p Hin. apply in_or_app. by left.
  - apply tracks_refl.
  - exists [WriteBroken path partial]. split; [done|]. simpl. split; [|done].
    intros p c [Heq|[]]. discriminate Heq.
Qed.

Lemma tracking_resolve_parameters E i props parameters :
  tracking (ParamFile.resolve_parameters E i parameters props).
Proof.
  revert parameters. induction props as [|prop props IH]; intros parameters; simpl.
  - apply tracking_ret.
  - apply tracking_bind; [|by intros].
    unfold ParamFile.resolve_parameter.
    apply tracking_bind; [apply tracking_lift|]. intros name.
    destruct (negb (truthy name)); [apply tracking_ret|].
    destruct (getNodeParameter E name i None); apply tracking_ret.
Qed.

Lemma tracking_bridge_toggle E i inputData pp t :
  tracking (ParamFile.bridge_toggle E i inputData pp t).
Proof.
  unfold ParamFile.bridge_toggle.
  destruct (obj_get t pp) as [[| |[|]| | | |]|]; try apply tracking_ret.
  cbv zeta.
  destruct (truthy _); [|apply tracking_ret].
  destruct (ParamFile.binary_member_of _ _) as [binaryInfo|]; [|apply tracking_throw].
  apply tracking_bind.
  { unfold ParamFile.getBinaryDataBuffer.
    apply tracking_bind; [by apply tracking_emit|]. intros _.
    destruct binaryInfo; [apply tracking_ret|apply tracking_lift]. }
  intros binaryBuffer. apply tracking_bind; [apply tracking_Date_now|]. intros now.
  apply tracking_write_push. apply tracking_ret.
Qed.

Lemma tracking_bridge_toggles E i inputData ts pp :
  tracking (ParamFile.bridge_toggles E i inputData pp ts).
Proof.
  revert pp. induction ts as [|t ts IH]; intros pp; simpl; [apply tracking_ret|].
  apply tracking_bind; [apply tracking_bridge_toggle|]. by intros.
Qed.

Lemma tracking_run_script E scriptPath paramsPath :
  tracking (ParamFile.run_script E scriptPath paramsPath).
Proof.
  intros s. unfold ParamFile.run_script.
  assert (Hspawn : tracks s (snd (emit (Spawn "python" [scriptPath; paramsPath]) s))).
  { by apply tracking_emit. }
  simpl in *.
  destruct (run_process E "python" [scriptPath; paramsPath] (files s))
    as [elapsed [[|c|c]|] out err|reason|]; exact Hspawn.
Qed.

Lemma tracking_output_record E i jsonResult :
  tracking (ParamFile.output_record E i jsonResult).
Proof.
  unfold ParamFile.output_record.
  apply tracking_bind; [apply tracking_lift|]. intros binary_data. cbv zeta.
  destruct (truthy binary_data && _); [|apply tracking_ret].
  apply tracking_bind; [apply tracking_lift|]. intros buffer. apply tracking_ret.
Qed.

Lemma tracking_item_body E i inputData : tracking (ParamFile.item_body E i inputData).
Proof.
  unfold ParamFile.item_body.
  apply tracking_bind; [apply tracking_lift|]. intros selected.
  destruct (negb (truthy selected)); [apply tracking_throw|].
  apply tracking_bind; [apply tracking_readJson|]. intros manifest.
  apply tracking_bind; [apply tracking_lift|]. intros functions.
  apply tracking_bind; [apply tracking_lift|]. intros selectedFunction.
  destruct (negb (truthy selectedFunction)); [apply tracking_throw|].
  apply tracking_bind; [apply tracking_path_join_value|]. intros scriptPath.
  apply tracking_bind; [apply tracking_path_join_value|]. intros uiStructurePath.
  apply tracking_bind; [apply tracking_fs_access|]. intros _.
  apply tracking_bind; [apply tracking_readJson|]. intros uiConfig.
  apply tracking_bind; [apply tracking_lift|]. intros props.
  apply tracking_bind.
  { destruct props; try apply tracking_ret. apply tracking_resolve_parameters. }
  intros parameters.
  apply tracking_bind; [apply tracking_bridge_toggles|]. intros processedParameters.
  apply tracking_bind; [apply tracking_Date_now|]. intros now.
  apply tracking_write_push.
  apply tracking_bind; [apply tracking_run_script|]. intros scriptResult.
  apply tracking_output_record.
Qed.

Lemma tracking_item_try_catch E i inputData returnData :
  tracking (ParamFile.item_try_catch E i inputData returnData).
Proof.
  apply tracking_try_catch.
  - apply tracking_bind; [apply tracking_item_body|]. intros record. apply tracking_ret.
  - intros e. destruct (continueOnFail E); [apply tracking_ret|apply tracking_throw].
Qed.

(** What the loop of the [finally] block leaves behind. *)
Lemma unlink_all_spec E paths s :
  exists s' evs,
    ParamFile.unlink_all E paths s = (Ok tt, s')
    /\ added s s' evs
    /\ tempFiles s' = tempFiles s
    /\ (forall p c, ~ In (WriteFile p c) evs)
    /\ (forall p, files s !! p = None -> files s' !! p = None)
    /\ (forall p, In p paths ->
          files s' !! p = None \/
          (undeletable E p = true /\
           In (ConsoleError ("Could not clean up temp file " +:+ p +:+ ":")) evs)).
Proof.
  revert s. induction paths as [|path paths IH]; intros s.
  - exists s, []. unfold added. rewrite app_nil_r. repeat split; try done.
    by intros p c [].
  - simpl. unfold bind, try_catch, fs_unlink.
    destruct (files s !! path) as [content|] eqn:Hfile;
      [destruct (undeletable E path) eqn:Hund|]; simpl.
    + match goal with |- context [ParamFile.unlink_all E paths ?s1] =>
        destruct (IH s1) as (s' & evs & Hrun & Hadd & Htemp & Hnow & Hgone & Hall) end.
      rewrite Hrun. eexists s', (_ :: _ :: evs). unfold added in *. simpl in *.
      split; [done|]. split; [by rewrite Hadd, <- !app_assoc|].
      split; [done|]. split.
      { intros p c [Heq|[Heq|Hin]]; try discriminate. by eapply Hnow. }
      split; [done|].
      intros p [<-|Hin].
      * right. split; [done|]. right. by left.
      * destruct (Hall p Hin) as [Hnone|[Hu Hlog]]; [by left|].
        right. split; [done|]. right. by right.
    + match goal with |- context [ParamFile.unlink_all E paths ?s1] =>
        destruct (IH s1) as (s' & evs & Hrun & Hadd & Htemp & Hnow & Hgone & Hall) end.
      rewrite Hrun. eexists s', (_ :: evs). unfold added in *. simpl in *.
      split; [done|]. split; [by rewrite Hadd, <- !app_assoc|].
      split; [done|]. split.
      { intros p c [Heq|Hin]; try discriminate. by eapply Hnow. }
      split.
      { intros p Hp. apply Hgone.
        destruct (decide (path = p)) as [->|Hne];
          [apply lookup_delete_eq|by rewrite lookup_delete_ne]. }
      intros p [<-|Hin].
      * left. apply Hgone. apply lookup_delete_eq.
      * destruct (Hall p Hin) as [Hnone|[Hu Hlog]]; [by left|].
        right. split; [done|]. by right.
    + match goal with |- context [ParamFile.unlink_all E paths ?s1] =>
        destruct (IH s1) as (s' & evs & Hrun & Hadd & Htemp & Hnow & Hgone & Hall) end.
      rewrite Hrun. eexists s', (_ :: _ :: evs). unfold added in *. simpl in *.
      split; [done|]. split; [by rewrite Hadd, <- !app_assoc|].
      split; [done|]. split.
      { intros p c [Heq|[Heq|Hin]]; try discriminate. by eapply Hnow. }
      split; [done|].
      intros p [<-|Hin].
      * left. by apply Hgone.
      * destruct (Hall p Hin) as [Hnone|[Hu Hlog]]; [by left|].
        right. split; [done|]. right. by right.
Qed.

Lemma cleanup_spec E s :
  exists s' evs,
    ParamFile.cleanup E s = (Ok tt, s')
    /\ added s s' evs
    /\ tempFiles s' = []
    /\ (forall p c, ~ In (WriteFile p c) evs)
    /\ (forall p, In p (tempFiles s) ->
          files s' !! p = None \/
          (undeletable E p = true /\
           In (ConsoleError ("Could not clean up temp file " +:+ p +:+ ":")) evs)).
Proof.
  destruct (unlink_all_spec E (tempFiles s) s)
    as (s1 & evs & Hrun & Hadd & Htemp & Hnow & Hgone & Hall).
  exists (set_tempFiles [] s1), evs. unfold ParamFile.cleanup. rewrite Hrun.
  repeat split; try done.
Qed.

(** The [try]/[catch] part of an item never consults which files resist
    deletion. *)
Lemma item_try_catch_ignores_undeletable E u i inputData returnData s :
  ParamFile.item_try_catch (with_undeletable u E) i inputData returnData s =
  ParamFile.item_try_catch E i inputData returnData s.
Proof. reflexivity. Qed.

(** When control comes back from the processing of one item, by whichever
    way (a record, a caught error, or the error thrown on), [tempFiles] is
    empty again and every file whose write completed during the attempt,
    binary bridge files and the parameter file alike, either is gone from
    the disk or resisted deletion, which was logged.  The way the item ends
    is the one its [try]/[catch] decided: it is the same whichever files
    resist deletion.  A file left by a write that broke off is outside this
    statement. *)
Lemma completed_writes_are_unlinked
    (E : Env) (i : nat) (inputData : INodeExecutionData)
    (returnData : list INodeExecutionData) (s s' : State)
    (r : outcome (list INodeExecutionData)) :
  ParamFile.process_item E i inputData returnData s = (r, s') ->
  r <> Pending ->
  tempFiles s' = []
  /\ (exists evs, added s s' evs /\
        forall p content, In (WriteFile p content) evs ->
          files s' !! p = None \/
          (undeletable E p = true /\
           In (ConsoleError ("Could not clean up temp file " +:+ p +:+ ":")) evs))
  /\ fst (ParamFile.item_try_catch E i inputData returnData s) = r
  /\ (forall u, fst (ParamFile.process_item (with_undeletable u E) i inputData returnData s) = r).
Proof.
  intros Hrun Hsettled.
  unfold ParamFile.process_item, try_finally in *.
  pose proof (tracking_item_try_catch E i inputData returnData s) as Htracks.
  destruct (ParamFile.item_try_catch E i inputData returnData s) as [r1 s1] eqn:Htry.
  simpl in Htracks.
  destruct Htracks as (evs1 & Hadd1 & Hwritten & _).
  destruct (cleanup_spec E s1) as (s2 & evs2 & Hclean & Hadd2 & Hempty & Hnow & Hall).
  assert (Hr : r = r1 /\ s' = s2).
  { destruct r1; rewrite ?Hclean in Hrun; inversion Hrun; subst; done. }
  destruct Hr as [-> ->].
  split; [done|]. split; [|split; [done|]].
  - exists (evs1 ++ evs2)%list. unfold added in *.
    split; [by rewrite Hadd2, Hadd1, app_assoc|].
    intros p content Hin. apply in_app_or in Hin as [Hin|Hin].
    + destruct (Hall p (Hwritten p content Hin)) as [Hnone|[Hu Hlog]]; [by left|].
      right. split; [done|]. apply in_or_app. by right.
    + by destruct (Hnow p content).
  - intros u. rewrite item_try_catch_ignores_undeletable, Htry.
    destruct (cleanup_spec (with_undeletable u E) s1) as (s3 & evs3 & Hclean3 & _).
    destruct r1; rewrite ?Hclean3; done.
Qed.

(** ** The item loop *)

Lemma returns_only_ret {A} (P : A -> Prop) a : P a -> returns_only P (ret a).
Proof. intros HP s a' s' [= <- _]. exact HP. Qed.

Lemma returns_only_throw {A} (P : A -> Prop) e : returns_only P (throw e).
Proof. by intros s a s'. Qed.

Lemma returns_only_bind {A B} (P : B -> Prop) (m : M A) (k : A -> M B) :
  (forall a, returns_only P (k a)) -> returns_only P (bind m k).
Proof.
  intros Hk s b s'. unfold bind.
  destruct (m s) as [[a|e|] s1]; try done. apply Hk.
Qed.

Lemma ParamFile_item_body_pairedItem E i inputData :
  returns_only (fun record => pairedItem record = Some i) (ParamFile.item_body E i inputData).
Proof.
  unfold ParamFile.item_body.
  apply returns_only_bind. intros selected.
  destruct (negb (truthy selected)); [apply returns_only_throw|].
  do 3 (apply returns_only_bind; intros ?).
  destruct (negb (truthy _)); [apply returns_only_throw|].
  do 11 (apply returns_only_bind; intros ?).
  unfold ParamFile.output_record.
  apply returns_only_bind. intros binary_data. cbv zeta.
  destruct (truthy binary_data && _).
  - apply returns_only_bind. intros buffer. by apply returns_only_ret.
  - by apply returns_only_ret.
Qed.

Lemma Cli_item_body_pairedItem E i :
  returns_only (fun record => pairedItem record = Some i) (Cli.item_body E i).
Proof.
  unfold Cli.item_body.
  apply returns_only_bind. intros selected.
  destruct (negb (truthy selected)); [apply returns_only_throw|].
  do 4 (apply returns_only_bind; intros ?).
  destruct (negb (truthy _)); [apply returns_only_throw|].
  cbv zeta.
  do 5 (apply returns_only_bind; intros ?).
  by apply returns_only_ret.
Qed.

Lemma record_of_pairedItem (r : outcome INodeExecutionData) i record :
  (forall x, r = Ok x -> pairedItem x = Some i) ->
  record_of r i = Some record -> pairedItem record = Some i.
Proof.
  intros Hok. destruct r as [x|e|]; simpl; intros [= <-]; [by apply Hok|done].
Qed.

(** *** Settling of the parameter-file item *)

Lemma settles_Date_now E : settles (Date_now E).
Proof. by intros s. Qed.

Lemma settles_fs_writeFile E path content : settles (fs_writeFile E path content).
Proof. intros s. unfold fs_writeFile. by destruct (write_outcome E path content). Qed.

Lemma settles_push_tempFile path : settles (ParamFile.push_tempFile path).
Proof. by intros s. Qed.

Lemma settles_resolve_parameters E i props parameters :
  settles (ParamFile.resolve_parameters E i parameters props).
Proof.
  revert parameters. induction props as [|prop props IH]; intros parameters; simpl.
  - apply settles_ret.
  - apply settles_bind; [|by intros].
    unfold ParamFile.resolve_parameter.
    apply settles_bind; [apply settles_lift|]. intros name.
    destruct (negb (truthy name)); [apply settles_ret|].
    destruct (getNodeParameter E name i None); apply settles_ret.
Qed.

Lemma settles_bridge_toggle E i inputData pp t :
  settles (ParamFile.bridge_toggle E i inputData pp t).
Proof.
  unfold ParamFile.bridge_toggle.
  destruct (obj_get t pp) as [[| |[|]| | | |]|]; try apply settles_ret.
  cbv zeta.
  destruct (truthy _); [|apply settles_ret].
  destruct (ParamFile.binary_member_of _ _) as [binaryInfo|]; [|apply settles_throw].
  apply settles_bind.
  { unfold ParamFile.getBinaryDataBuffer.
    apply settles_bind; [apply settles_emit|]. intros _.
    destruct binaryInfo; [apply settles_ret|apply settles_lift]. }
  intros binaryBuffer. apply settles_bind; [apply settles_Date_now|]. intros now.
  apply settles_bind; [apply settles_fs_writeFile|]. intros _.
  apply settles_bind; [apply settles_push_tempFile|]. intros _. apply settles_ret.
Qed.

Lemma settles_bridge_toggles E i inputData ts pp :
  settles (ParamFile.bridge_toggles E i inputData pp ts).
Proof.
  revert pp. induction ts as [|t ts IH]; intros pp; simpl; [apply settles_ret|].
  apply settles_bind; [apply settles_bridge_toggle|]. by intros.
Qed.

Lemma settles_ParamFile_run_script E scriptPath paramsPath :
  (forall command args disk, run_process E command args disk <> NeverCloses) ->
  settles (ParamFile.run_script E scriptPath paramsPath).
Proof.
  intros Hcloses s. unfold ParamFile.run_script. simpl.
  specialize (Hcloses "python" [scriptPath; paramsPath] (files s)).
  destruct (run_process E "python" [scriptPath; paramsPath] (files s))
    as [elapsed [[|c|c]|] out err|reason|]; done.
Qed.

Lemma settles_ParamFile_output_record E i jsonResult :
  settles (ParamFile.output_record E i jsonResult).
Proof.
  unfold ParamFile.output_record.
  apply settles_bind; [apply settles_lift|]. intros binary_data. cbv zeta.
  destruct (truthy binary_data && _); [|apply settles_ret].
  apply settles_bind; [apply settles_lift|]. intros buffer. apply settles_ret.
Qed.

Lemma settles_ParamFile_item_body E i inputData :
  (forall command args disk, run_process E command args disk <> NeverCloses) ->
  settles (ParamFile.item_body E i inputData).
Proof.
  intros Hcloses. unfold ParamFile.item_body.
  apply settles_bind; [apply settles_lift|]. intros selected.
  destruct (negb (truthy selected)); [apply settles_throw|].
  apply settles_bind; [apply settles_readJson|]. intros manifest.
  apply settles_bind; [apply settles_lift|]. intros functions.
  apply settles_bind; [apply settles_lift|]. intros selectedFunction.
  destruct (negb (truthy selectedFunction)); [apply settles_throw|].
  apply settles_bind; [apply settles_path_join_value|]. intros scriptPath.
  apply settles_bind; [apply settles_path_join_value|]. intros uiStructurePath.
  apply settles_bind; [apply settles_fs_access|]. intros _.
  apply settles_bind; [apply settles_readJson|]. intros uiConfig.
  apply settles_bind; [apply settles_lift|]. intros props.
  apply settles_bind.
  { destruct props; try apply settles_ret. apply settles_resolve_parameters. }
  intros parameters.
  apply settles_bind; [apply settles_bridge_toggles|]. intros processedParameters.
  apply settles_bind; [apply settles_Date_now|]. intros now.
  apply settles_bind; [apply settles_fs_writeFile|]. intros _.
  apply settles_bind; [apply settles_push_tempFile|]. intros _.
  apply settles_bind; [by apply settles_ParamFile_run_script|]. intros scriptResult.
  apply settles_ParamFile_output_record.
Qed.

(** *** Settling of the command-line item: the timer leaves no way to stay
    pending *)

Lemma settles_Cli_run_script E scriptPath args : settles (Cli.run_script E scriptPath args).
Proof.
  unfold Cli.run_script. apply settles_bind; [apply settles_emit|]. intros _ s.
  destruct (run_process E "python3" (scriptPath :: args) (files s))
    as [elapsed [[|c|c]|] out err|reason|]; simpl;
    try destruct (elapsed <? Cli.timeout_ms); done.
Qed.

Lemma settles_Cli_build_args E i uiStructurePath selectedFunction :
  settles (Cli.build_args E i uiStructurePath selectedFunction).
Proof.
  unfold Cli.build_args. apply settles_try_catch.
  - apply settles_bind; [apply settles_fs_access|]. intros _.
    apply settles_bind; [apply settles_readJson|]. intros uiConfig.
    apply settles_bind; [apply settles_lift|]. intros props.
    destruct props; try apply settles_ret.
    destruct (Cli.collect_args E i elems []) as [args [e|]]; [|apply settles_ret].
    apply settles_bind; [apply settles_emit|]. intros _. apply settles_ret.
  - intros e. apply settles_bind; [apply settles_emit|]. intros _. apply settles_ret.
Qed.

Lemma settles_Cli_item_body E i : settles (Cli.item_body E i).
Proof.
  unfold Cli.item_body.
  apply settles_bind; [apply settles_lift|]. intros selected.
  destruct (negb (truthy selected)); [apply settles_throw|].
  apply settles_bind.
  { apply settles_try_catch; [apply settles_fs_access|]. intros e. apply settles_throw. }
  intros _.
  apply settles_bind; [apply settles_readJson|]. intros manifest.
  apply settles_bind; [apply settles_lift|]. intros functions.
  apply settles_bind; [apply settles_lift|]. intros selectedFunction.
  destruct (negb (truthy selectedFunction)); [apply settles_throw|]. cbv zeta.
  apply settles_bind; [apply settles_path_join_value|]. intros scriptPath.
  apply settles_bind.
  { apply settles_try_catch; [apply settles_fs_access|]. intros e. apply settles_throw. }
  intros _.
  apply settles_bind; [apply settles_path_join_value|]. intros uiStructurePath.
  apply settles_bind; [apply settles_Cli_build_args|]. intros args.
  apply settles_bind; [apply settles_Cli_run_script|]. intros scriptResult.
  apply settles_ret.
Qed.

(** *** One turn of the loop under either policy *)

Lemma ParamFile_process_item_continue E i x rd s :
  continueOnFail E = true ->
  fst (ParamFile.item_body E i x s) <> Pending ->
  exists record s1,
    ParamFile.process_item E i x rd s = (Ok (rd ++ [record])%list, s1)
    /\ record_of (fst (ParamFile.item_body E i x s)) i = Some record.
Proof.
  intros Hpolicy Hsettled.
  unfold ParamFile.process_item, try_finally, ParamFile.item_try_catch, try_catch, bind.
  rewrite Hpolicy.
  destruct (ParamFile.item_body E i x s) as [[record|e|] s0]; simpl in *; try done.
  - destruct (cleanup_spec E s0) as (s1 & evs & -> & _). by exists record, s1.
  - destruct (cleanup_spec E s0) as (s1 & evs & -> & _). by eexists _, s1.
Qed.

Lemma ParamFile_process_item_abort E i x rd s e :
  continueOnFail E = false ->
  fst (ParamFile.item_body E i x s) = Throw e ->
  fst (ParamFile.process_item E i x rd s) = Throw e.
Proof.
  intros Hpolicy Hthrows.
  unfold ParamFile.process_item, try_finally, ParamFile.item_try_catch, try_catch, bind.
  rewrite Hpolicy.
  destruct (ParamFile.item_body E i x s) as [[record|e'|] s0]; simpl in *; try done.
  destruct (cleanup_spec E s0) as (s1 & evs & -> & _). simpl. congruence.
Qed.

Lemma Cli_process_item_continue E i rd s :
  continueOnFail E = true ->
  exists record s1,
    Cli.process_item E i rd s = (Ok (rd ++ [record])%list, s1)
    /\ record_of (fst (Cli.item_body E i s)) i = Some record.
Proof.
  intros Hpolicy. pose proof (settles_Cli_item_body E i s) as Hsettled.
  unfold Cli.process_item, try_catch, bind. rewrite Hpolicy.
  destruct (Cli.item_body E i s) as [[record|e|] s0]; simpl in *; try done.
  - by exists record, s0.
  - by eexists _, s0.
Qed.

Lemma Cli_process_item_abort E i rd s e :
  continueOnFail E = false ->
  fst (Cli.item_body E i s) = Throw e ->
  Cli.process_item E i rd s = (Throw e, snd (Cli.item_body E i s)).
Proof.
  intros Hpolicy Hthrows.
  unfold Cli.process_item, try_catch, bind. rewrite Hpolicy.
  destruct (Cli.item_body E i s) as [[record|e'|] s0]; simpl in *; try done.
  by injection Hthrows as ->.
Qed.

(** *** The whole loop *)

Lemma ParamFile_items_continue E :
  continueOnFail E = true ->
  (forall command args disk, run_process E command args disk <> NeverCloses) ->
  forall l i rd s,
    exists out s',
      ParamFile.process_items E i l rd s = (Ok (rd ++ out)%list, s')
      /\ length out = length l
      /\ forall k x, l !! k = Some x ->
           exists record, out !! k = Some record /\
             record_of (fst (ParamFile.item_body E (i + k) x
                               (snd (ParamFile.process_items E i (take k l) rd s))))
                       (i + k)%nat = Some record.
Proof.
  intros Hpolicy Hcloses.
  induction l as [|x l IH]; intros i rd s.
  - exists [], s. simpl. rewrite app_nil_r. by repeat split.
  - destruct (ParamFile_process_item_continue E i x rd s Hpolicy
                (settles_ParamFile_item_body E i x Hcloses s))
      as (record & s1 & Hstep & Hrecord).
    destruct (IH (S i) (rd ++ [record])%list s1) as (out & s' & Hrun & Hlen & Hall).
    exists (record :: out), s'. simpl. unfold bind at 1. rewrite Hstep.
    split; [by rewrite Hrun, <- app_assoc|]. split; [by rewrite Hlen|].
    intros [|k] y Hy; simpl in *.
    + injection Hy as <-. exists record. by rewrite Nat.add_0_r.
    + destruct (Hall k y Hy) as (ry & Hout & Hry). exists ry. split; [done|].
      unfold bind. rewrite Hstep. by rewrite Nat.add_succ_r.
Qed.

Lemma Cli_items_continue E :
  continueOnFail E = true ->
  forall l i rd s,
    exists out s',
      Cli.process_items E i l rd s = (Ok (rd ++ out)%list, s')
      /\ length out = length l
      /\ forall k x, l !! k = Some x ->
           exists record, out !! k = Some record /\
             record_of (fst (Cli.item_body E (i + k)
                               (snd (Cli.process_items E i (take k l) rd s))))
                       (i + k)%nat = Some record.
Proof.
  intros Hpolicy.
  induction l as [|x l IH]; intros i rd s.
  - exists [], s. simpl. rewrite app_nil_r. by repeat split.
  - destruct (Cli_process_item_continue E i rd s Hpolicy)
      as (record & s1 & Hstep & Hrecord).
    destruct (IH (S i) (rd ++ [record])%list s1) as (out & s' & Hrun & Hlen & Hall).
    exists (record :: out), s'. simpl. unfold bind at 1. rewrite Hstep.
    split; [by rewrite Hrun, <- app_assoc|]. split; [by rewrite Hlen|].
    intros [|k] y Hy; simpl in *.
    + exists record. by rewrite Nat.add_0_r.
    + destruct (Hall k y Hy) as (ry & Hout & Hry). exists ry. split; [done|].
      unfold bind. rewrite Hstep. by rewrite Nat.add_succ_r.
Qed.

Lemma ParamFile_items_abort E :
  continueOnFail E = false ->
  forall l i rd s k x rd_k e,
    l !! k = Some x ->
    fst (ParamFile.process_items E i (take k l) rd s) = Ok rd_k ->
    fst (ParamFile.item_body E (i + k) x
           (snd (ParamFile.process_items E i (take k l) rd s))) = Throw e ->
    ParamFile.process_items E i l rd s =
      (Throw e, snd (ParamFile.process_item E (i + k) x rd_k
                       (snd (ParamFile.process_items E i (take k l) rd s)))).
Proof.
  intros Hpolicy.
  induction l as [|y l IH]; intros i rd s k x rd_k e Hx Hbefore Hthrows; [done|].
  destruct k as [|k]; simpl in *.
  - injection Hx as ->. injection Hbefore as <-. rewrite Nat.add_0_r in *.
    pose proof (ParamFile_process_item_abort E i x rd s e Hpolicy Hthrows) as Hstep.
    unfold bind. destruct (ParamFile.process_item E i x rd s) as [r s1].
    simpl in Hstep. by subst r.
  - unfold bind in *.
    destruct (ParamFile.process_item E i y rd s) as [[rd1|e1|] s1]; try done.
    rewrite Nat.add_succ_r in *.
    exact (IH (S i) rd1 s1 k x rd_k e Hx Hbefore Hthrows).
Qed.

Lemma Cli_items_abort E :
  continueOnFail E = false ->
  forall l i rd s k x rd_k e,
    l !! k = Some x ->
    fst (Cli.process_items E i (take k l) rd s) = Ok rd_k ->
    fst (Cli.item_body E (i + k)
           (snd (Cli.process_items E i (take k l) rd s))) = Throw e ->
    Cli.process_items E i l rd s =
      (Throw e, snd (Cli.item_body E (i + k)
                       (snd (Cli.process_items E i (take k l) rd s)))).
Proof.
  intros Hpolicy.
  induction l as [|y l IH]; intros i rd s k x rd_k e Hx Hbefore Hthrows; [done|].
  destruct k as [|k]; simpl in *.
  - rewrite Nat.add_0_r in *. unfold bind.
    by rewrite (Cli_process_item_abort E i rd s e Hpolicy Hthrows).
  - unfold bind in *.
    destruct (Cli.process_item E i rd s) as [[rd1|e1|] s1]; try done.
    rewrite Nat.add_succ_r in *.
    exact (IH (S i) rd1 s1 k x rd_k e Hx Hbefore Hthrows).
Qed.

Lemma record_of_cases (r : outcome INodeExecutionData) k record :
  record_of r k = Some record ->
  r = Ok record \/
  exists e, r = Throw e /\
    record = {| json := VObj [("error", VStr (message e))];
                binary := None; pairedItem := Some k |}.
Proof.
  destruct r as [x|e|]; simpl; intros [= <-]; [by left|].
  right. by exists e.
Qed.

(** Items are taken in index order, each from the machine state its
    predecessors left.  Under continue-on-fail, when every child closes in
    the parameter-file version and always in the command-line version, the
    node returns one record per input item, in input order: record [k] has
    [pairedItem] [k] and is the record item [k] produced, or
    [{ error: message }] for the error it threw.  Without continue-on-fail,
    the first item that throws ends [execute] with that error, in the state
    that item left behind: no later item is touched. *)
Lemma records_follow_items (E : Env) (s : State) :
  (continueOnFail E = true ->
   (forall command args disk, run_process E command args disk <> NeverCloses) ->
   exists out s',
     ParamFile.execute E s = (Ok [out], s')
     /\ length out = length (getInputData E)
     /\ forall k inputData, getInputData E !! k = Some inputData ->
          exists record,
            out !! k = Some record
            /\ pairedItem record = Some k
            /\ let r := fst (ParamFile.item_body E k inputData
                               (snd (ParamFile.process_items E 0
                                       (take k (getInputData E)) []
                                       (set_tempFiles [] s)))) in
               (r = Ok record \/
                exists e, r = Throw e /\
                  record = {| json := VObj [("error", VStr (message e))];
                              binary := None; pairedItem := Some k |}))
  /\
  (continueOnFail E = true ->
   exists out s',
     Cli.execute E s = (Ok [out], s')
     /\ length out = length (getInputData E)
     /\ forall k inputData, getInputData E !! k = Some inputData ->
          exists record,
            out !! k = Some record
            /\ pairedItem record = Some k
            /\ let r := fst (Cli.item_body E k
                               (snd (Cli.process_items E 0
                                       (take k (getInputData E)) [] s))) in
               (r = Ok record \/
                exists e, r = Throw e /\
                  record = {| json := VObj [("error", VStr (message e))];
                              binary := None; pairedItem := Some k |}))
  /\
  (continueOnFail E = false ->
   forall k inputData returnData e,
     getInputData E !! k = Some inputData ->
     let before := ParamFile.process_items E 0 (take k (getInputData E)) []
                     (set_tempFiles [] s) in
     fst before = Ok returnData ->
     fst (ParamFile.item_body E k inputData (snd before)) = Throw e ->
     ParamFile.execute E s =
       (Throw e, snd (ParamFile.process_item E k inputData returnData (snd before))))
  /\
  (continueOnFail E = false ->
   forall k inputData returnData e,
     getInputData E !! k = Some inputData ->
     let before := Cli.process_items E 0 (take k (getInputData E)) [] s in
     fst before = Ok returnData ->
     fst (Cli.item_body E k (snd before)) = Throw e ->
     Cli.execute E s = (Throw e, snd (Cli.item_body E k (snd before)))).
Proof.
  split; [|split; [|split]].
  - intros Hpolicy Hcloses.
    destruct (ParamFile_items_continue E Hpolicy Hcloses (getInputData E) 0%nat []
                (set_tempFiles [] s)) as (out & s' & Hrun & Hlen & Hall).
    exists out, s'. unfold ParamFile.execute, bind. rewrite Hrun. simpl.
    split; [done|]. split; [done|].
    intros k inputData Hk. destruct (Hall k inputData Hk) as (record & Hout & Hrecord).
    exists record. simpl in Hrecord. split; [done|].
    split; [|by apply record_of_cases].
    eapply record_of_pairedItem; [|exact Hrecord].
    intros x Hx.
    destruct (ParamFile.item_body E k inputData _) as [r sk] eqn:Hbody.
    simpl in Hx. subst r. by eapply ParamFile_item_body_pairedItem.
  - intros Hpolicy.
    destruct (Cli_items_continue E Hpolicy (getInputData E) 0%nat [] s)
      as (out & s' & Hrun & Hlen & Hall).
    exists out, s'. unfold Cli.execute, bind. rewrite Hrun. simpl.
    split; [done|]. split; [done|].
    intros k inputData Hk. destruct (Hall k inputData Hk) as (record & Hout & Hrecord).
    exists record. simpl in Hrecord. split; [done|].
    split; [|by apply record_of_cases].
    eapply record_of_pairedItem; [|exact Hrecord].
    intros x Hx.
    destruct (Cli.item_body E k _) as [r sk] eqn:Hbody.
    simpl in Hx. subst r. by eapply Cli_item_body_pairedItem.
  - intros Hpolicy k inputData returnData e Hk before Hbefore Hthrows.
    unfold ParamFile.execute, bind.
    by rewrite (ParamFile_items_abort E Hpolicy (getInputData E) 0%nat []
                  (set_tempFiles [] s) k inputData returnData e Hk Hbefore Hthrows).
  - intros Hpolicy k inputData returnData e Hk before Hbefore Hthrows.
    unfold Cli.execute, bind.
    by rewrite (Cli_items_abort E Hpolicy (getInputData E) 0%nat [] s
                  k inputData returnData e Hk Hbefore Hthrows).
Qed.

(** ** The timer *)

(** In the command-line file a child that is still running when the timer
    fires is sent the kill signal, and the promise is rejected. *)
Lemma cli_timeout_enforced E scriptPath args s :
  (run_process E "python3" (scriptPath :: args) (files s) = NeverCloses \/
   exists elapsed code out err,
     run_process E "python3" (scriptPath :: args) (files s) = Closes elapsed code out err
     /\ Cli.timeout_ms <= elapsed) ->
  exists s',
    Cli.run_script E scriptPath args s =
      (Throw (NodeOperationError "Script execution timed out"), s')
    /\ added s s' [Spawn "python3" (scriptPath :: args); Kill].
Proof.
  intros Hlate. unfold Cli.run_script, bind. simpl.
  destruct Hlate as [->|(elapsed & code & out & err & -> & Hlate)].
  - eexists. split; [reflexivity|]. unfold added. simpl. by rewrite <- app_assoc.
  - apply Z.ltb_ge in Hlate. rewrite Hlate.
    eexists. split; [reflexivity|]. unfold added. simpl. by rewrite <- app_assoc.
Qed.

(** In the parameter-file file nothing bounds the wait. *)
Lemma param_file_waits_for_ever E scriptPath paramsPath s :
  run_process E "python" [scriptPath; paramsPath] (files s) = NeverCloses ->
  ParamFile.run_script E scriptPath paramsPath s =
    (Pending, snd (emit (Spawn "python" [scriptPath; paramsPath]) s)).
Proof. intros Hhangs. unfold ParamFile.run_script. simpl. by rewrite Hhangs. Qed.

(** C4 fails on [part_000]: with a child that never closes, [execute] of
    the parameter-file version never returns and never sends a kill signal,
    whereas the command-line version, run on the same input, ends the item
    with the time-out error after killing the child. *)
Theorem parameter_file_version_has_no_timer :
  fst (ParamFile.execute Demo.hanging (Demo.start Demo.disk)) = Pending
  /\ ~ In Kill (trace (snd (ParamFile.execute Demo.hanging (Demo.start Demo.disk))))
  /\ fst (Cli.execute Demo.hanging (Demo.start Demo.disk)) =
       Ok [[error_record (NodeOperationError "Script execution timed out") 0]]
  /\ In Kill (trace (snd (Cli.execute Demo.hanging (Demo.start Demo.disk)))).
Proof.
  split; [by vm_compute|]. split; [|split; [by vm_compute|]].
  - vm_compute. intros [H|[H|[H|[H|[]]]]]; discriminate H.
  - vm_compute. right. by left.
Qed.

(** ** The binary bridge, input side: a toggle with a usable sibling *)

Lemma substring_skip x k m y :
  substring (String.length x + k) m (x +:+ y) = substring k m y.
Proof. induction x as [|c x IH]; simpl; [done|]. exact IH. Qed.

Lemma length_app_string x y :
  String.length (x +:+ y) = (String.length x + String.length y)%nat.
Proof. induction x as [|c x IH]; simpl; [done|]. by rewrite IH. Qed.

(** The sibling key never is a toggle key. *)
Lemma binaryPropNameKey_not_toggle t :
  endsWith "IsBinary" (ParamFile.binaryPropNameKey t) = false.
Proof.
  unfold ParamFile.binaryPropNameKey, endsWith.
  rewrite length_app_string. simpl String.length.
  destruct (_ <? 8)%nat; [done|].
  replace (String.length (replace "IsBinary" "" t) + 18 - 8)%nat
    with (String.length (replace "IsBinary" "" t) + 10)%nat by lia.
  by rewrite substring_skip.
Qed.

Lemma prefix_split pattern s :
  String.prefix pattern s = true -> exists rest, s = pattern +:+ rest.
Proof.
  revert s. induction pattern as [|c pattern IH]; intros s Hprefix; simpl in *.
  - by exists s.
  - destruct s as [|c' s]; [done|].
    change (match ascii_dec c c' with
            | left _ => String.prefix pattern s
            | right _ => false
            end = true) in Hprefix.
    destruct (ascii_dec c c') as [<-|]; [|done].
    destruct (IH s Hprefix) as [rest ->]. by exists rest.
Qed.

Lemma replace_unfold pattern replacement s :
  replace pattern replacement s =
  if String.prefix pattern s
  then replacement +:+ substring (String.length pattern)
                                 (String.length s - String.length pattern) s
  else match s with
       | EmptyString => EmptyString
       | String c rest => String c (replace pattern replacement rest)
       end.
Proof. by destruct s. Qed.

(** When [IsBinary] occurs in a toggle name only as its suffix, the sibling
    key the code computes is the one with the same prefix. *)
Lemma binaryPropNameKey_same_prefix prefix :
  (forall a b, prefix +:+ "IsBinary" = a +:+ "IsBinary" +:+ b -> b = "") ->
  ParamFile.binaryPropNameKey (prefix +:+ "IsBinary") = prefix +:+ "BinaryPropertyName".
Proof.
  intros Honly. unfold ParamFile.binaryPropNameKey. f_equal.
  induction prefix as [|c prefix IH]; [reflexivity|].
  rewrite replace_unfold.
  destruct (String.prefix "IsBinary" (String c prefix +:+ "IsBinary")) eqn:Hprefix.
  - apply prefix_split in Hprefix as [rest Hrest].
    pose proof (Honly "" rest Hrest) as ->.
    apply (f_equal String.length) in Hrest.
    simpl in Hrest. rewrite length_app_string in Hrest. simpl in Hrest. lia.
  - simpl. f_equal. apply IH. intros a b Hsplit.
    apply (Honly (String c a) b).
    change (String c (prefix +:+ "IsBinary") = String c (a +:+ "IsBinary" +:+ b)).
    by rewrite Hsplit.
Qed.

(** One turn of the bridge for a switched-on toggle whose sibling names an
    attachment of the item: the bytes are written to the temporary path,
    the path is remembered and replaces the sibling's value, the toggle
    stays as it was. *)
Lemma bridge_toggle_bridges E i inputData pp t s name info :
  endsWith "IsBinary" t = true ->
  obj_get t pp = Some (VBool true) ->
  obj_get (ParamFile.binaryPropNameKey t) pp = Some name ->
  truthy name = true ->
  ParamFile.binary_lookup inputData name = Some info ->
  let tempPath :=
    path_join E (tmpdir E)
      ("n8n-ffmpeg-bin-" +:+ pretty (clock E (ticks s)) +:+ "-" +:+
       default (js_String name +:+ ".bin") (bin_fileName info)) in
  write_outcome E tempPath (bin_data info) = Written ->
  exists pp' s',
    ParamFile.bridge_toggle E i inputData pp t s = (Ok pp', s')
    /\ obj_get (ParamFile.binaryPropNameKey t) pp' = Some (VStr tempPath)
    /\ obj_get t pp' = Some (VBool true)
    /\ files s' !! tempPath = Some (bin_data info)
    /\ In tempPath (tempFiles s')
    /\ added s s' [GetBinaryDataBuffer i name; WriteFile tempPath (bin_data info)].
Proof.
  intros Hends Hon Hsibling Htruthy Hlookup tempPath Hwrite.
  unfold ParamFile.bridge_toggle. rewrite Hon, Hsibling.
  change (default VUndefined (Some name)) with name. cbv zeta.
  unfold ParamFile.binary_member_of. rewrite Htruthy, Hlookup.
  unfold bind, ParamFile.getBinaryDataBuffer, bind. simpl.
  fold tempPath. unfold fs_writeFile. rewrite Hwrite. simpl.
  eexists _, _. split; [reflexivity|]. simpl.
  split; [apply obj_get_set_eq|].
  split.
  { rewrite obj_get_set_ne; [done|]. intros Hsame.
    rewrite Hsame in Hends. by rewrite binaryPropNameKey_not_toggle in Hends. }
  split; [apply lookup_insert_eq|].
  split; [apply in_or_app; right; by left|].
  unfold added. simpl. by rewrite <- app_assoc.
Qed.

(** The same turn when the item has no attachment of that name, and the
    name is not one that the attachment object inherits. *)
Lemma bridge_toggle_missing_attachment E i inputData pp t s name :
  obj_get t pp = Some (VBool true) ->
  obj_get (ParamFile.binaryPropNameKey t) pp = Some name ->
  truthy name = true ->
  ParamFile.binary_lookup inputData name = None ->
  ParamFile.inherited_name (js_String name) = false ->
  ParamFile.bridge_toggle E i inputData pp t s =
    (Throw (NodeOperationError ("Binary property '" +:+ js_String name
                                +:+ "' not found in input data.")), s).
Proof.
  intros Hon Hsibling Htruthy Hlookup Hown.
  unfold ParamFile.bridge_toggle. rewrite Hon, Hsibling.
  change (default VUndefined (Some name)) with name. cbv zeta.
  unfold ParamFile.binary_member_of. rewrite Htruthy, Hlookup, Hown.
  by destruct (binary inputData).
Qed.

(** C1 fails on the code in two ways.  Two binary inputs whose attachments
    share a file name and are bridged within one millisecond get the same
    temporary path: the second write replaces the first, and the parameter
    of the first input points to a file that holds the bytes of the second.
    And for a toggle whose name contains [IsBinary] before its end, the
    sibling with the same prefix is never consulted, although it names an
    attachment of the item. *)
Theorem bridge_file_names_collide :
  ParamFile.binary_lookup Demo.two_inputs (VStr "video")
    = Some {| bin_data := "VVV"; bin_fileName := Some "clip.mp4" |}
  /\ (exists pp s',
        ParamFile.bridge_in Demo.frozen 0 Demo.two_inputs Demo.two_toggles
          (Demo.start Demo.disk) = (Ok pp, s')
        /\ obj_get "videoBinaryPropertyName" pp
             = Some (VStr "/tmp/n8n-ffmpeg-bin-1700000000000-clip.mp4")
        /\ obj_get "audioBinaryPropertyName" pp
             = Some (VStr "/tmp/n8n-ffmpeg-bin-1700000000000-clip.mp4")
        /\ files s' !! "/tmp/n8n-ffmpeg-bin-1700000000000-clip.mp4" = Some "AAA")
  /\ endsWith "IsBinary" "IsBinaryMaskIsBinary" = true
  /\ ParamFile.binary_lookup (Demo.item "AAA") (VStr "data")
       = Some {| bin_data := "AAA"; bin_fileName := Some "in.mp4" |}
  /\ ParamFile.bridge_in Demo.quiet 0 (Demo.item "AAA") Demo.inner_suffix
       (Demo.start Demo.disk) = (Ok Demo.inner_suffix, Demo.start Demo.disk).
Proof.
  split; [by vm_compute|]. split.
  - eexists _, _. split; [vm_compute; reflexivity|]. by vm_compute.
  - split; [by vm_compute|]. split; by vm_compute.
Qed.

(** ** Where the parameter-file version departs from what is intended *)

(** C2 fails on the code: a write that breaks off after the file has been
    opened (here on a full disk) leaves a file behind that is never pushed
    to [tempFiles], since the push follows the awaited write; the [finally]
    block has nothing to unlink, and the file, which did not exist before
    and does not resist deletion, is still on the disk when the item's
    error record is returned. *)
Theorem broken_write_leaves_its_file :
  let path := "/tmp/n8n-ffmpeg-bin-1700000000000-in.mp4" in
  let run := ParamFile.process_item Demo.full_disk 0 (Demo.item "AAA") []
               (Demo.start Demo.disk) in
  files (Demo.start Demo.disk) !! path = None
  /\ undeletable Demo.full_disk path = false
  /\ fst run = Ok [{| json := VObj [("error",
                                      VStr "ENOSPC: no space left on device, write")];
                      binary := None; pairedItem := Some 0%nat |}]
  /\ trace (snd run) = [GetBinaryDataBuffer 0 (VStr "data"); WriteBroken path "A"]
  /\ tempFiles (snd run) = []
  /\ files (snd run) !! path = Some "A".
Proof. repeat split; by vm_compute. Qed.

(** C3 fails on [part_000]: under continue-on-fail, with three input items
    and a child that never closes, [execute] of the parameter-file version
    stays pending on the first item and returns no record at all, whereas
    the command-line version, on the same input, returns one
    [{ error: message }] record per item, in order. *)
Theorem hanging_child_yields_no_record :
  continueOnFail Demo.stalled = true
  /\ length (getInputData Demo.stalled) = 3%nat
  /\ fst (ParamFile.execute Demo.stalled (Demo.start Demo.disk)) = Pending
  /\ fst (Cli.execute Demo.stalled (Demo.start Demo.disk)) =
       Ok [[{| json := VObj [("error", VStr "Script execution timed out")];
               binary := None; pairedItem := Some 0%nat |};
            {| json := VObj [("error", VStr "Script execution timed out")];
               binary := None; pairedItem := Some 1%nat |};
            {| json := VObj [("error", VStr "Script execution timed out")];
               binary := None; pairedItem := Some 2%nat |}]].
Proof. repeat split; by vm_compute. Qed.

(** C9 fails on the code: the toggle [IsBinaryMaskIsBinary] is [true] and
    its same-prefix sibling [IsBinaryMaskBinaryPropertyName] is absent, yet
    the bridge does not pass it over: it reads the key that
    [replace('IsBinary', '')] yields, [MaskIsBinaryBinaryPropertyName],
    fetches the attachment that parameter names, writes a temporary file
    and replaces that parameter's value by the file's path. *)
Theorem toggle_with_absent_sibling_is_bridged :
  let path := "/tmp/n8n-ffmpeg-bin-1700000000000-in.mp4" in
  let run := ParamFile.bridge_in Demo.quiet 0 (Demo.item "AAA") Demo.shadowed
               (Demo.start Demo.disk) in
  endsWith "IsBinary" "IsBinaryMaskIsBinary" = true
  /\ obj_get "IsBinaryMaskIsBinary" Demo.shadowed = Some (VBool true)
  /\ obj_get "IsBinaryMaskBinaryPropertyName" Demo.shadowed = None
  /\ fst run = Ok [("IsBinaryMaskIsBinary", VBool true);
                   ("MaskIsBinaryBinaryPropertyName", VStr path)]
  /\ trace (snd run) = [GetBinaryDataBuffer 0 (VStr "data"); WriteFile path "AAA"]
  /\ tempFiles (snd run) = [path]
  /\ files (snd run) !! path = Some "AAA".
Proof. repeat split; by vm_compute. Qed.

(** For a toggle name in which [IsBinary] occurs only as the suffix, the
    key the code reads is the same-prefix sibling, and the toggle is passed
    over when that sibling is absent or falsy. *)
Lemma same_prefix_toggle_is_skipped E i inputData pp prefix s :
  (forall a b, prefix +:+ "IsBinary" = a +:+ "IsBinary" +:+ b -> b = "") ->
  obj_get (prefix +:+ "IsBinary") pp = Some (VBool true) ->
  truthy (default VUndefined (obj_get (prefix +:+ "BinaryPropertyName") pp)) = false ->
  ParamFile.bridge_toggle E i inputData pp (prefix +:+ "IsBinary") s = (Ok pp, s).
Proof.
  intros Honly Hon Hfalsy. apply bridge_toggle_skip; [done|].
  by rewrite binaryPropNameKey_same_prefix.
Qed.

(** ** The binary bridge, output side *)


(** C5, amended. For a decoded result other than [null] or [undefined]:
    when [binary_data] and [file_name] are both truthy, the payload is
    handed to [Buffer.from(payload, 'base64')]; if that yields bytes, as it
    always does for a string payload (the base64 decoding of the string),
    the record has an empty JSON body and, under the key [data], the
    attachment the host prepares from those bytes and the [file_name]
    value; if it throws, the item fails with that error.  When either field
    is absent, empty or otherwise falsy, the decoded result is the record
    body and there is no attachment.  So a record that is returned carries
    an attachment exactly when both fields are truthy.  On [null] the
    property read throws and the item fails. *)
Theorem binary_result_iff_truthy_fields
    (E : Env) (i : nat) (jsonResult : value) (s : State) :
  (forall e, get_prop jsonResult "binary_data" = inl e ->
     ParamFile.output_record E i jsonResult s = (Throw e, s))
  /\
  (forall binary_data, get_prop jsonResult "binary_data" = inr binary_data ->
     let file_name := get_prop_opt jsonResult "file_name" in
     (truthy binary_data && truthy file_name = true ->
        (forall bytes, Buffer_from_base64 E binary_data = inr bytes ->
           ParamFile.output_record E i jsonResult s =
             (Ok {| json := VObj [];
                    binary := Some {[ "data" := prepareBinaryData E bytes file_name ]};
                    pairedItem := Some i |}, s))
        /\ (forall e, Buffer_from_base64 E binary_data = inl e ->
              ParamFile.output_record E i jsonResult s = (Throw e, s))
        /\ (forall b, binary_data = VStr b ->
              Buffer_from_base64 E binary_data = inr (base64_decode E b)))
     /\
     (truthy binary_data && truthy file_name = false ->
        ParamFile.output_record E i jsonResult s =
          (Ok {| json := jsonResult; binary := None; pairedItem := Some i |}, s))
     /\
     (forall record s',
        ParamFile.output_record E i jsonResult s = (Ok record, s') ->
        (is_Some (binary record) <-> truthy binary_data && truthy file_name = true))).
Proof.
  split.
  - intros e Hget. unfold ParamFile.output_record, bind. by rewrite Hget.
  - intros binary_data Hget file_name. split; [|split].
    + intros Htrue. split; [|split].
      * intros bytes Hbytes. unfold ParamFile.output_record, bind.
        rewrite Hget. simpl. fold file_name. rewrite Htrue, Hbytes. done.
      * intros e Hthrows. unfold ParamFile.output_record, bind.
        rewrite Hget. simpl. fold file_name. rewrite Htrue, Hthrows. done.
      * by intros b ->.
    + intros Hfalse. by eapply output_record_plain.
    + intros record s'. unfold ParamFile.output_record, bind.
      rewrite Hget. simpl. fold file_name.
      destruct (truthy binary_data && truthy file_name); simpl.
      * destruct (Buffer_from_base64 E binary_data); simpl; [done|].
        intros [= <- _]. simpl. split; [done|]. intros _. by eexists.
      * intros [= <- _]. simpl. split; [|done]. by intros [x Hx].
Qed.

Lemma binary_result_iff_truthy_fields_witness :
  get_prop Demo.payload "binary_data" = inr (VStr "YWJj") /\
  truthy (VStr "YWJj") && truthy (get_prop_opt Demo.payload "file_name") = true /\
  Buffer_from_base64 Demo.quiet (VStr "YWJj") = inr "YWJj" /\
  ParamFile.output_record Demo.quiet 0 Demo.payload (Demo.start Demo.disk) =
    (Ok {| json := VObj [];
           binary := Some {[ "data" := {| bin_data := "YWJj"; bin_fileName := Some "x.bin" |} ]};
           pairedItem := Some 0%nat |}, Demo.start Demo.disk).
Proof.
  split; [reflexivity|]. split; [reflexivity|]. split; [reflexivity|].
  apply (proj1 (proj1 (proj2 (binary_result_iff_truthy_fields Demo.quiet 0 Demo.payload
                                (Demo.start Demo.disk)) (VStr "YWJj") eq_refl) eq_refl)
           "YWJj" eq_refl).
Defined.

(** A payload that [Buffer.from] rejects, here the number 5: both fields
    are truthy, and the item fails instead of yielding a record. *)
Lemma number_payload_fails_the_item :
  ParamFile.output_record Demo.quiet 0 Demo.number_payload (Demo.start Demo.disk) =
    (Throw (TypeError "The first argument must be of type string"), Demo.start Demo.disk).
Proof. by vm_compute. Qed.

(** ** From an item's record back to the child's output *)









(** ** From the schema to the child's command line *)





